(** * Apologies: reward calculation and character input sources

    A shallow embedding of [apologies/reward.py] and [apologies/source.py].

    Python values are represented as follows.
    - [int] is [Z] (Python integers are unbounded).
    - [float] is the rational number the float denotes ([Q]).  The only floats
      the two modules create are [float(n)] of an integer [n] and the literal
      [0.0]; the conversion is exact for [|n| <= 2^53], far above the rewards
      of a game (at most 400 per opponent), and is represented by [inject_Z].
      Module [Binary64] gives the conversion as the machine performs it, with
      its rounding to 53 bits and its [OverflowError], and the reward
      calculator on top of it; the two agree up to [2^53].
    - a raised exception is the [Raise] constructor of [result].
    - the [opponents] dictionary of a view is a [gmap] from colors to players.
    - [BoardRules.distance_to_home], which lives outside the two modules, is
      a parameter of the development. *)

From Stdlib Require Import ZArith QArith List Lia Permutation Sorted.
From stdpp Require Import base tactics option list sorting gmap strings.

Local Open Scope Z_scope.

(** ** Python builtins used by the two modules *)

Module Py.

Inductive exn : Set :=
| IndexError
| OverflowError
| TypeError
| ValueError.

Inductive result (A : Type) : Type :=
| Ok (a : A)
| Raise (e : exn).
Arguments Ok {A} a.
Arguments Raise {A} e.

Definition float : Type := Q.

(** [float(n)] for an [int]. *)
Definition float_of_int (n : Z) : float := inject_Z n.

(** [sum(xs)]: starts from [0] and adds the items from left to right. *)
Definition sum (xs : list Z) : Z := fold_left Z.add xs 0.

(** [a < b] on floats. *)
Definition float_lt (a b : float) : bool :=
  match Qcompare a b with Lt => true | _ => false end.

Section Sort.
Context {A : Type} (key : A -> float).

(** One step of a stable ascending sort: [x] stood before every item of
    [sorted] in the input, so it goes in front of the first item whose key
    is not below its own.  Only [<] is used, as in CPython. *)
Fixpoint insert (x : A) (sorted : list A) : list A :=
  match sorted with
  | [] => [x]
  | y :: rest =>
      if float_lt (key y) (key x) then y :: insert x rest
      else x :: y :: rest
  end.

Fixpoint stable_sort (xs : list A) : list A :=
  match xs with
  | [] => []
  | x :: rest => insert x (stable_sort rest)
  end.

(** [xs.sort(reverse=True, key=key)].  CPython keeps the sort stable under
    [reverse=True] by reversing the list, sorting it in ascending order
    with its stable sort, and reversing the outcome.  The insertion sort
    stands for CPython's merge sort: on keys without NaN a stable sort has
    only one possible outcome. *)
Definition sort_reverse (xs : list A) : list A :=
  rev (stable_sort (rev xs)).
End Sort.

(** [xs[0]]. *)
Definition item0 {A} (xs : list A) : result A :=
  match xs with
  | [] => Raise IndexError
  | x :: _ => Ok x
  end.

End Py.

(** ** The game state consumed by the reward calculator ([apologies/game.py]) *)

Module Game.

(** Modelled from the spec: [PlayerColor] of [apologies/game.py], the
    identity of a player; the colors are named by strings. *)
Definition PlayerColor : Type := string.

(** Modelled from the spec: [GameMode] of [apologies/game.py]. *)
Inductive GameMode : Set := STANDARD | ADULT.

(** Modelled from the spec: [Position] of [apologies/game.py], of which the
    calculator reads the [home] flag and the optional [safe] square. *)
Record Position : Type := mkPosition {
  home : bool;
  safe : option Z
}.

(** Modelled from the spec: [Pawn] of [apologies/game.py]; a pawn belongs to
    one player, is told apart by its index and has a position. *)
Record Pawn : Type := mkPawn {
  color : PlayerColor;
  index : Z;
  position : Position
}.

(** Modelled from the spec: [Player] of [apologies/game.py]. *)
Record Player : Type := mkPlayer {
  player_color : PlayerColor;
  pawns : list Pawn
}.

(** Modelled from the spec: [Player.all_pawns_in_home] of
    [apologies/game.py], the win condition "all pawns in home". *)
Definition all_pawns_in_home (player : Player) : bool :=
  forallb (fun pawn => home (position pawn)) (pawns player).

(** Modelled from the spec: [PlayerView] of [apologies/game.py], the acting
    player and a dictionary from opponent color to opponent. *)
Record PlayerView : Type := mkPlayerView {
  player : Player;
  opponents : gmap PlayerColor Player
}.

(** [view.opponents.values()]. *)
Definition values (d : gmap PlayerColor Player) : list Player :=
  (map_to_list d).*2.

(** [len(view.opponents)]. *)
Definition dict_len (d : gmap PlayerColor Player) : Z :=
  Z.of_nat (size d).

End Game.

(** ** [apologies/reward.py] *)

Module RewardCalculatorV1.
Import Py Game.

Section Rules.
(** [BoardRules.distance_to_home]. *)
Variable distance_to_home : Pawn -> Z.

Definition _distance_incentive (player : Player) : Z :=
  let distance := sum (map distance_to_home (pawns player)) in
  260 - distance.

Definition _safe_incentive (player : Player) : Z :=
  sum (map (fun pawn =>
              if home (position pawn) || bool_decide (safe (position pawn) <> None)
              then 10 else 0)
           (pawns player)).

Definition _winner_incentive (player : Player) : Z :=
  if all_pawns_in_home player then 100 else 0.

Definition _player_score (player : Player) : Z :=
  let distance_incentive := _distance_incentive player in
  let safe_incentive := _safe_incentive player in
  let winner_incentive := _winner_incentive player in
  distance_incentive + safe_incentive + winner_incentive.

Definition _reward (view : PlayerView) : Z :=
  let player_score := _player_score (player view) in
  let opponent_scores := map _player_score (values (opponents view)) in
  let reward := dict_len (opponents view) * player_score - sum opponent_scores in
  if reward <? 0 then 0 else reward.

Definition calculate (view : PlayerView) : float :=
  float_of_int (_reward view).

Definition range (players : Z) : float * float :=
  (0%Q, float_of_int ((players - 1) * 400)).
End Rules.

End RewardCalculatorV1.

(** ** The reward calculator on binary64 floats *)

(** Every float of [apologies/reward.py] is a finite binary64 number with an
    integer value; such a float is represented by its value. *)
Module Binary64.
Import Py Game.

(** The nearest number with 53 significant bits to a positive integer, a tie
    going to the even neighbour. *)
Definition round_pos (n : Z) : Z :=
  let e := Z.log2 n in
  if e <? 53 then n
  else
    let s := e - 52 in
    let q := n / 2 ^ s in
    let r := n mod 2 ^ s in
    let h := 2 ^ (s - 1) in
    let q' := if r <? h then q
              else if h <? r then q + 1
              else if Z.even q then q else q + 1 in
    q' * 2 ^ s.

Definition round (n : Z) : Z := Z.sgn n * round_pos (Z.abs n).

(** The least integer whose rounding leaves the range of binary64. *)
Definition overflow_from : Z := 2 ^ 1024 - 2 ^ 970.

(** [float(n)] for an [int]: the integer is rounded, and an outcome of
    magnitude [2^1024] or more is refused with an [OverflowError]. *)
Definition float_of_int (n : Z) : result Z :=
  let v := round n in
  if 2 ^ 1024 <=? Z.abs v then Raise OverflowError else Ok v.


Section Rules.
Variable distance_to_home : Pawn -> Z.

Definition calculate (view : PlayerView) : result Z :=
  float_of_int (RewardCalculatorV1._reward distance_to_home view).

Definition range (players : Z) : result (Z * Z) :=
  match float_of_int ((players - 1) * 400) with
  | Ok upper => Ok (0, upper)
  | Raise e => Raise e
  end.
End Rules.

End Binary64.

(** ** [apologies/source.py] *)

(** The [random] module, as far as [RandomInputSource] uses it.  The generator
    is an explicit state; [randbelow g n] draws an index below [n]. *)
Module Random.
Import Py.

Section Generator.
Context {RNG : Type} (randbelow : RNG -> nat -> nat * RNG).

(** [random.choice(seq)]: an empty sequence is refused before anything is
    drawn. *)
Definition choice {A} (g : RNG) (seq : list A) : result A * RNG :=
  match seq with
  | [] => (Raise IndexError, g)
  | _ :: _ =>
      let '(i, g') := randbelow g (length seq) in
      (match seq !! i with Some x => Ok x | None => Raise IndexError end, g')
  end.
End Generator.
End Random.

(** The evaluator handed to [choose_move]: a pure function from a view and a
    move to the view after the move. *)
Definition Evaluator (Move : Type) : Type :=
  Game.PlayerView -> Move -> Game.PlayerView.

Module RandomInputSource.
Import Py Game.

Section Source.
Context {RNG Move : Type} (randbelow : RNG -> nat -> nat * RNG).

Definition choose_move (g : RNG) (mode : GameMode) (view : PlayerView)
    (legal_moves : list Move) (unused : Evaluator Move) : result Move * RNG :=
  Random.choice randbelow g legal_moves.
End Source.
End RandomInputSource.

Module RewardInputSource.
Import Py Game.

Section Source.
Context {Move : Type}.
(** The abstract method [calculate] that a subclass supplies. *)
Variable calculate : PlayerView -> Move -> Evaluator Move -> Move * float.

(** The list comprehension of [choose_move]: a (move, reward) pair for each
    legal move, in the order of [legal_moves]. *)
Definition evaluate (view : PlayerView) (legal_moves : list Move)
    (evaluator : Evaluator Move) : list (Move * float) :=
  map (fun move => calculate view move evaluator) legal_moves.

Definition choose_move (mode : GameMode) (view : PlayerView)
    (legal_moves : list Move) (evaluator : Evaluator Move) : result Move :=
  let evaluated := evaluate view legal_moves evaluator in
  let evaluated := sort_reverse (fun e => snd e) evaluated in
  match item0 evaluated with
  | Ok e => Ok (fst e)
  | Raise x => Raise x
  end.
End Source.
End RewardInputSource.

Module RewardV1InputSource.
Import Py Game.

Section Source.
Context {Move : Type}.
Variable distance_to_home : Pawn -> Z.

(** The class attribute [calculator = RewardCalculatorV1()]. *)
Definition calculator : PlayerView -> float :=
  RewardCalculatorV1.calculate distance_to_home.

Definition calculate (view : PlayerView) (move : Move)
    (evaluator : Evaluator Move) : Move * float :=
  (move, calculator (evaluator view move)).

Definition choose_move : GameMode -> PlayerView -> list Move ->
    Evaluator Move -> result Move :=
  RewardInputSource.choose_move calculate.
End Source.
End RewardV1InputSource.

(** The factory [source(name)] and the part of Python's object model it
    touches: [pydoc.locate], [issubclass] and a call of the class. *)
Module Factory.
Import Py.

(** The classes of [apologies/source.py]; [Foreign] stands for any class
    that does not derive from [CharacterInputSource]. *)
Inductive class : Set :=
| CharacterInputSource
| RandomInputSource
| RewardInputSource
| RewardV1InputSource
| Foreign (qualname : string).

(** What [pydoc.locate] can hand back: [None] for a name it cannot resolve,
    a class, or some other object (a module, a function, ...). *)
Inductive object : Set :=
| PyNone
| PyClass (c : class)
| PyOther (qualname : string).

Inductive instance : Set :=
| Instance (c : class).

(** [issubclass(c, CharacterInputSource)] for a class [c]. *)
Definition derives_from_source (c : class) : bool :=
  match c with
  | Foreign _ => false
  | _ => true
  end.

(** [issubclass(o, CharacterInputSource)]: the abstract base class refuses
    a first argument that is not a class with a [TypeError]. *)
Definition issubclass_source (o : object) : result bool :=
  match o with
  | PyClass c => Ok (derives_from_source c)
  | PyNone | PyOther _ => Raise TypeError
  end.

(** A class that still has an abstract method cannot be instantiated. *)
Definition is_abstract (c : class) : bool :=
  match c with
  | CharacterInputSource | RewardInputSource => true
  | _ => false
  end.

(** [cls()]. *)
Definition construct (o : object) : result instance :=
  match o with
  | PyClass c => if is_abstract c then Raise TypeError else Ok (Instance c)
  | PyNone | PyOther _ => Raise TypeError
  end.

Section Namespace.
(** [pydoc.locate] in the running interpreter. *)
Variable locate : string -> object.

Definition source (name : string) : result instance :=
  let cls := locate name in
  match issubclass_source cls with
  | Raise e => Raise e
  | Ok false => Raise ValueError
  | Ok true => construct cls
  end.
End Namespace.

(** A namespace in which the [apologies] package is importable. *)
Definition apologies_namespace (name : string) : object :=
  if String.eqb name "apologies.source.CharacterInputSource" then PyClass CharacterInputSource
  else if String.eqb name "apologies.source.RandomInputSource" then PyClass RandomInputSource
  else if String.eqb name "apologies.source.RewardInputSource" then PyClass RewardInputSource
  else if String.eqb name "apologies.source.RewardV1InputSource" then PyClass RewardV1InputSource
  else if String.eqb name "apologies.reward.RewardCalculatorV1" then PyClass (Foreign name)
  else if String.eqb name "apologies.source" then PyOther name
  else PyNone.

End Factory.

(** ** Vocabulary of the statements *)

(** The pawns that earn the safe incentive: in home or in the safe zone. *)
Definition home_or_safe (pawn : Game.Pawn) : bool :=
  Game.home (Game.position pawn)
  || bool_decide (Game.safe (Game.position pawn) <> None).

(** The player obtained by putting [pawn'] in place of the pawn at [i]. *)
Definition with_pawn (player : Game.Player) (i : nat) (pawn' : Game.Pawn)
    : Game.Player :=
  Game.mkPlayer (Game.player_color player) (<[i:=pawn']> (Game.pawns player)).

(** The value of [reward] in [_reward] before it is clamped. *)
Definition raw_reward (distance_to_home : Game.Pawn -> Z)
    (view : Game.PlayerView) : Z :=
  Game.dict_len (Game.opponents view)
  * RewardCalculatorV1._player_score distance_to_home (Game.player view)
  - Py.sum (map (RewardCalculatorV1._player_score distance_to_home)
                (Game.values (Game.opponents view))).

(** A player of the reference configuration: four pawns, each at a distance
    between 0 and 65 from home. *)
Definition reference_player (distance_to_home : Game.Pawn -> Z)
    (p : Game.Player) : Prop :=
  length (Game.pawns p) = 4%nat
  /\ Forall (fun pawn => 0 <= distance_to_home pawn <= 65) (Game.pawns p).

(** [e] is the first item of [xs] with the greatest key: the items before it
    have a smaller key and no item after it has a greater one. *)
Definition first_maximum {A} (key : A -> Py.float)
    (xs pre : list A) (e : A) (post : list A) : Prop :=
  xs = pre ++ e :: post
  /\ Forall (fun x => (key x < key e)%Q) pre
  /\ Forall (fun x => (key x <= key e)%Q) post.

(** The items whose key equals [c], in the order of the list. *)
Definition with_key {A} (key : A -> Py.float) (c : Py.float) (xs : list A)
    : list A :=
  List.filter (fun x => Qeq_bool (key x) c) xs.


(** The score that the scoring method [calculate] gives to a move. *)
Definition move_score {Move}
    (calculate : Game.PlayerView -> Move -> Evaluator Move -> Move * Py.float)
    (view : Game.PlayerView) (evaluator : Evaluator Move) (move : Move)
    : Py.float :=
  snd (calculate view move evaluator).

(** ** Worked positions *)

Module Sample.
Import Py Game.

(** A distance table for the worked positions: each pawn is charged the
    number kept in its [index]. *)
Definition distance (pawn : Pawn) : Z := index pawn.

Definition at_start : Position := mkPosition false None.
Definition in_safe : Position := mkPosition false (Some 4).
Definition in_home : Position := mkPosition true None.

Definition squad (c : PlayerColor) (ps : list (Z * Position)) : Player :=
  mkPlayer c (map (fun p => mkPawn c (fst p) (snd p)) ps).

(** All four pawns in home: 260 + 40 + 100. *)
Definition winner : Player :=
  squad "Red" [(0, in_home); (0, in_home); (0, in_home); (0, in_home)].
(** Three pawns in home and one safe, none charged: 260 + 40. *)
Definition p300 : Player :=
  squad "Red" [(0, in_home); (0, in_home); (0, in_home); (0, in_safe)].
Definition p100 : Player :=
  squad "Yellow" [(40, at_start); (40, at_start); (40, at_start); (40, at_start)].
Definition p150 : Player :=
  squad "Blue" [(50, at_start); (60, at_start); (0, at_start); (0, at_start)].
Definition p200 : Player :=
  squad "Green" [(60, at_start); (0, at_start); (0, at_start); (0, at_start)].

Definition two_players : PlayerView :=
  mkPlayerView p300 {[ "Yellow" := p100 ]}.
Definition three_players : PlayerView :=
  mkPlayerView p100 {[ "Blue" := p150; "Green" := p200 ]}.

(** A scoring method that gives every move the same score. *)
Definition level (view : PlayerView) (move : nat) (evaluator : Evaluator nat)
    : nat * float :=
  (move, 1%Q).

(** An evaluator that leaves the view as it is. *)
Definition still : Evaluator nat := fun view _ => view.
End Sample.

(** Further worked positions and a generator for the worked draws. *)
Module Table.
Import Py Game.

(** Four pawns at the far end of the board: score 0. *)
Definition p0 : Player :=
  Sample.squad "Blue"
    [(65, Sample.at_start); (65, Sample.at_start);
     (65, Sample.at_start); (65, Sample.at_start)].

(** A won game against one opponent who has not moved. *)
Definition won_game : PlayerView :=
  mkPlayerView Sample.winner {[ "Blue" := p0 ]}.

(** A player with one pawn at a distance of minus ten to the 400, which no
    board has, and the view in which this player faces [p0]. *)
Definition off_board : Player :=
  Sample.squad "Red"
    [(- 10 ^ 400, Sample.at_start); (0, Sample.at_start);
     (0, Sample.at_start); (0, Sample.at_start)].

Definition off_board_view : PlayerView :=
  mkPlayerView off_board {[ "Blue" := p0 ]}.

(** A generator that counts its draws and draws the last index that the
    count allows. *)
Definition counter (g n : nat) : nat * nat := (Nat.min g (n - 1), S g).
End Table.

(** * Properties *)

(** ** Sums of integers *)

Section SumFacts.
Import Py.

Lemma fold_left_add_acc (xs : list Z) (a : Z) :
  fold_left Z.add xs a = a + fold_left Z.add xs 0.
Proof.
  revert a. induction xs as [|x xs IH]; intros a; simpl.
  - lia.
  - rewrite (IH (a + x)), (IH (0 + x)). lia.
Qed.

Lemma sum_nil : sum [] = 0.
Proof. reflexivity. Qed.

Lemma sum_cons (x : Z) (xs : list Z) : sum (x :: xs) = x + sum xs.
Proof. unfold sum. cbn [fold_left]. rewrite fold_left_add_acc. lia. Qed.

Lemma sum_Permutation (xs ys : list Z) : xs ≡ₚ ys -> sum xs = sum ys.
Proof.
  induction 1 as [|x xs ys _ IH|x y xs|xs ys zs _ IH1 _ IH2].
  - reflexivity.
  - rewrite !sum_cons. lia.
  - rewrite !sum_cons. lia.
  - congruence.
Qed.

(** Every item between [lo] and [hi] bounds the sum by the length. *)
Lemma sum_bounds (lo hi : Z) (xs : list Z) :
  Forall (fun x => lo <= x <= hi) xs ->
  lo * Z.of_nat (length xs) <= sum xs <= hi * Z.of_nat (length xs).
Proof.
  induction 1 as [|x xs Hx _ IH].
  - rewrite sum_nil. simpl. lia.
  - rewrite sum_cons. cbn [length]. lia.
Qed.

Lemma sum_map_const {A} (f : A -> Z) (c : Z) (xs : list A) :
  Forall (fun x => f x = c) xs -> sum (map f xs) = c * Z.of_nat (length xs).
Proof.
  induction 1 as [|x xs Hx _ IH].
  - cbn [map length]. rewrite sum_nil. lia.
  - cbn [map length]. rewrite sum_cons. lia.
Qed.
End SumFacts.

(** ** The player score *)

Section PlayerScore.
Import Py Game RewardCalculatorV1.
Variable distance_to_home : Pawn -> Z.

Lemma safe_incentive_count (player : Player) :
  _safe_incentive player
  = 10 * Z.of_nat (length (List.filter home_or_safe (pawns player))).
Proof.
  unfold _safe_incentive. induction (pawns player) as [|pawn ps IH].
  - reflexivity.
  - cbn [map List.filter]. rewrite sum_cons, IH.
    fold (home_or_safe pawn). destruct (home_or_safe pawn); cbn [length]; lia.
Qed.

Lemma all_home_forallb (player : Player) :
  Forall (fun pawn => home (position pawn) = true) (pawns player) ->
  all_pawns_in_home player = true.
Proof.
  unfold all_pawns_in_home. induction 1 as [|pawn ps Hp _ IH]; simpl.
  - reflexivity.
  - rewrite Hp, IH. reflexivity.
Qed.

Lemma all_home_filter (ps : list Pawn) :
  Forall (fun pawn => home (position pawn) = true) ps ->
  List.filter home_or_safe ps = ps.
Proof.
  induction 1 as [|pawn ps Hp _ IH]; simpl.
  - reflexivity.
  - unfold home_or_safe at 1. rewrite Hp, IH. reflexivity.
Qed.

Lemma player_score_unfold (player : Player) :
_player_score distance_to_home player
= (260 - sum (map distance_to_home (pawns player)))
  + 10 * Z.of_nat (length (List.filter home_or_safe (pawns player)))
  + (if all_pawns_in_home player then 100 else 0).
Proof.
unfold _player_score, _distance_incentive, _winner_incentive.
rewrite safe_incentive_count. reflexivity.
Qed.

(** C2. The per-player score is the sum of three terms: 260 minus the
    summed distances to home of the pawns, 10 points for each pawn that is
    in home or in the safe zone, and 100 for a player with all pawns in
    home.  A player whose four pawns are all in home at distance 0 gets
    260, 40 and 100, hence a score of 400. *)
Theorem player_score_three_terms (player : Player) :
  _player_score distance_to_home player
  = (260 - sum (map distance_to_home (pawns player)))
    + 10 * Z.of_nat (length (List.filter home_or_safe (pawns player)))
    + (if all_pawns_in_home player then 100 else 0)
  /\ (length (pawns player) = 4%nat ->
      Forall (fun pawn => home (position pawn) = true /\ distance_to_home pawn = 0)
             (pawns player) ->
      _distance_incentive distance_to_home player = 260
      /\ _safe_incentive player = 40
      /\ _winner_incentive player = 100
      /\ _player_score distance_to_home player = 400).
Proof.
  split.
  - apply player_score_unfold.
  - intros Hlen Hall.
    assert (Hhome : Forall (fun pawn => home (position pawn) = true) (pawns player))
      by (eapply Forall_impl; [exact Hall | intros ? [? ?]; assumption]).
    assert (Hdist : Forall (fun pawn => distance_to_home pawn = 0) (pawns player))
      by (eapply Forall_impl; [exact Hall | intros ? [? ?]; assumption]).
    assert (Hd : _distance_incentive distance_to_home player = 260).
    { unfold _distance_incentive. rewrite (sum_map_const _ 0) by exact Hdist. lia. }
    assert (Hs : _safe_incentive player = 40).
    { rewrite safe_incentive_count, all_home_filter, Hlen by exact Hhome. lia. }
    assert (Hw : _winner_incentive player = 100).
    { unfold _winner_incentive. rewrite all_home_forallb by exact Hhome. reflexivity. }
    unfold _player_score. rewrite Hd, Hs, Hw. repeat split; reflexivity.
Qed.
End PlayerScore.

(** ** Moving one pawn closer to home *)

Section Distance.
Import Py Game RewardCalculatorV1.
Variable distance_to_home : Pawn -> Z.

Lemma sum_map_insert {A} (f : A -> Z) (xs : list A) (i : nat) (x y : A) :
  xs !! i = Some x ->
  sum (map f (<[i:=y]> xs)) = sum (map f xs) + (f y - f x).
Proof.
  revert i. induction xs as [|z xs IH]; intros [|i] Hi; try discriminate.
  - injection Hi as ->. cbn [map]. change (<[0%nat:=y]> (x :: xs)) with (y :: xs).
    cbn [map]. rewrite !sum_cons. lia.
  - change (<[S i:=y]> (z :: xs)) with (z :: <[i:=y]> xs).
    cbn [map]. rewrite !sum_cons, (IH i) by exact Hi. lia.
Qed.

Lemma map_insert_same {A B} (f : A -> B) (xs : list A) (i : nat) (x y : A) :
  xs !! i = Some x -> f y = f x -> map f (<[i:=y]> xs) = map f xs.
Proof.
  revert i. induction xs as [|z xs IH]; intros [|i] Hi Hf; try discriminate.
  - injection Hi as ->. change (<[0%nat:=y]> (x :: xs)) with (y :: xs).
    cbn [map]. rewrite Hf. reflexivity.
  - change (<[S i:=y]> (z :: xs)) with (z :: <[i:=y]> xs).
    cbn [map]. rewrite (IH i) by assumption. reflexivity.
Qed.

Lemma forallb_map {A} (f : A -> bool) (xs : list A) :
  forallb f xs = forallb (fun b => b) (map f xs).
Proof. induction xs as [|x xs IH]; simpl; [reflexivity | rewrite IH; reflexivity]. Qed.

(** C8. Replacing one pawn of a player by a pawn with the same home and safe
    flags changes the player score by exactly the distance gained, so a
    smaller distance to home never lowers the score and a strictly smaller
    one strictly raises it. *)
Theorem player_score_antitone_in_distance
    (player : Player) (i : nat) (pawn pawn' : Pawn) :
  pawns player !! i = Some pawn ->
  home (position pawn') = home (position pawn) ->
  (safe (position pawn') = None <-> safe (position pawn) = None) ->
  _player_score distance_to_home (with_pawn player i pawn')
  = _player_score distance_to_home player
    + (distance_to_home pawn - distance_to_home pawn')
  /\ (distance_to_home pawn' <= distance_to_home pawn ->
      _player_score distance_to_home player
      <= _player_score distance_to_home (with_pawn player i pawn'))
  /\ (distance_to_home pawn' < distance_to_home pawn ->
      _player_score distance_to_home player
      < _player_score distance_to_home (with_pawn player i pawn')).
Proof.
  intros Hi Hhome Hsafe.
  assert (Hflag : home_or_safe pawn' = home_or_safe pawn).
  { unfold home_or_safe. rewrite Hhome. f_equal.
    apply bool_decide_ext. tauto. }
  assert (Hscore : _player_score distance_to_home (with_pawn player i pawn')
                   = _player_score distance_to_home player
                     + (distance_to_home pawn - distance_to_home pawn')).
  { unfold _player_score, _distance_incentive, _safe_incentive, _winner_incentive,
      all_pawns_in_home, with_pawn. cbn [pawns].
    rewrite (sum_map_insert _ _ _ _ _ Hi).
    rewrite (map_insert_same
               (fun p => if home (position p) || bool_decide (safe (position p) <> None)
                         then 10 else 0) _ _ _ _ Hi)
      by (fold (home_or_safe pawn') (home_or_safe pawn); rewrite Hflag; reflexivity).
    rewrite (forallb_map _ (<[i:=pawn']> (pawns player))).
    rewrite (map_insert_same (fun p => home (position p)) _ _ _ _ Hi Hhome).
    rewrite <- forallb_map. lia. }
  rewrite Hscore. repeat split; lia.
Qed.
End Distance.

(** ** The comparative reward *)

Section Reward.
Import Py Game RewardCalculatorV1.
Variable distance_to_home : Pawn -> Z.

Local Abbreviation score := (_player_score distance_to_home).

Lemma reward_is_clamped (view : PlayerView) :
  _reward distance_to_home view = Z.max 0 (raw_reward distance_to_home view).
Proof.
  unfold _reward. fold (raw_reward distance_to_home view).
  destruct (Z.ltb_spec (raw_reward distance_to_home view) 0); lia.
Qed.

(** A dictionary built from distinct keys has the listed values, in some
    order, and as many entries as the list. *)
Lemma values_list_to_map (os : list (PlayerColor * Player)) :
  NoDup os.*1 -> values (list_to_map os) ≡ₚ os.*2.
Proof.
  intros Hnd. unfold values.
  rewrite (map_to_list_to_map os Hnd). reflexivity.
Qed.

Lemma dict_len_list_to_map (os : list (PlayerColor * Player)) :
  NoDup os.*1 ->
  dict_len (list_to_map os : gmap PlayerColor Player) = Z.of_nat (length os).
Proof.
  intros Hnd. unfold dict_len. f_equal.
  rewrite <- length_map_to_list, (map_to_list_to_map os Hnd). reflexivity.
Qed.

Lemma raw_reward_list_to_map (view : PlayerView) (os : list (PlayerColor * Player)) :
  NoDup os.*1 -> opponents view = list_to_map os ->
  raw_reward distance_to_home view
  = Z.of_nat (length os) * score (player view) - sum (map score os.*2).
Proof.
  intros Hnd Hos. unfold raw_reward. rewrite Hos, dict_len_list_to_map by exact Hnd.
  f_equal. apply sum_Permutation.
  apply (fmap_Permutation score). apply values_list_to_map, Hnd.
Qed.

(** C1. The reward is the clamped comparative value: with [S] the score of
    the acting player and [O1..Ok] the scores of the [k] opponents listed in
    any order, [calculate] returns [float(max(0, k*S - (O1+...+Ok)))].  A
    score of 300 against one opponent at 100 gives 200; a score of 100
    against opponents at 150 and 200 gives the raw value -150, clamped
    to 0. *)
Theorem calculate_comparative_reward (view : PlayerView) :
  (forall os : list (PlayerColor * Player),
      NoDup os.*1 -> opponents view = list_to_map os ->
      calculate distance_to_home view
      = float_of_int (Z.max 0 (Z.of_nat (length os) * score (player view)
                               - sum (map score os.*2))))
  /\ (forall c o,
         opponents view = {[ c := o ]} ->
         score (player view) = 300 -> score o = 100 ->
         calculate distance_to_home view = 200%Q)
  /\ (forall c1 c2 o1 o2,
         c1 <> c2 -> opponents view = {[ c1 := o1; c2 := o2 ]} ->
         score (player view) = 100 -> score o1 = 150 -> score o2 = 200 ->
         raw_reward distance_to_home view = -150
         /\ calculate distance_to_home view = 0%Q).
Proof.
  assert (Hgen : forall os : list (PlayerColor * Player),
             NoDup os.*1 -> opponents view = list_to_map os ->
             calculate distance_to_home view
             = float_of_int (Z.max 0 (Z.of_nat (length os) * score (player view)
                                      - sum (map score os.*2)))).
  { intros os Hnd Hos. unfold calculate.
    rewrite reward_is_clamped, (raw_reward_list_to_map view os Hnd Hos).
    reflexivity. }
  split; [exact Hgen|]. split.
  - intros c o Hos HS HO.
    rewrite (Hgen [(c, o)]).
    + cbn [length fmap list_fmap snd map]. rewrite HS, sum_cons, sum_nil, HO.
      reflexivity.
    + cbn. apply NoDup_singleton.
    + rewrite Hos. cbn. rewrite insert_empty. reflexivity.
  - intros c1 c2 o1 o2 Hne Hos HS H1 H2.
    assert (Hnd : NoDup [(c1, o1); (c2, o2)].*1).
    { cbn. apply NoDup_cons. split; [|apply NoDup_singleton].
      rewrite list_elem_of_singleton. exact Hne. }
    assert (Hmap : opponents view = list_to_map [(c1, o1); (c2, o2)]).
    { rewrite Hos. cbn. rewrite insert_empty. reflexivity. }
    split.
    + rewrite (raw_reward_list_to_map view _ Hnd Hmap).
      cbn [length fmap list_fmap snd map].
      rewrite HS, !sum_cons, sum_nil, H1, H2. reflexivity.
    + rewrite (Hgen _ Hnd Hmap).
      cbn [length fmap list_fmap snd map].
      rewrite HS, !sum_cons, sum_nil, H1, H2. reflexivity.
Qed.

Lemma range_unfold (p : Z) : range p = (0%Q, (400 * inject_Z (p - 1))%Q).
Proof.
  unfold range, float_of_int, inject_Z, Qmult. cbn [Qnum Qden].
  f_equal. f_equal. lia.
Qed.
End Reward.

(** ** The reward stays within the declared range *)

Section Range.
Import Py Game RewardCalculatorV1.
Variable distance_to_home : Pawn -> Z.

Local Abbreviation score := (_player_score distance_to_home).

Lemma filter_length_le {A} (f : A -> bool) (xs : list A) :
  (length (List.filter f xs) <= length xs)%nat.
Proof.
  induction xs as [|x xs IH]; simpl; [lia|].
  destruct (f x); simpl; lia.
Qed.

Lemma reference_player_score (p : Player) :
  reference_player distance_to_home p -> 0 <= score p <= 400.
Proof.
  intros [Hlen Hdist].
  rewrite player_score_unfold.
  assert (Hsum : 0 * Z.of_nat (length (map distance_to_home (pawns p)))
                 <= sum (map distance_to_home (pawns p))
                 <= 65 * Z.of_nat (length (map distance_to_home (pawns p)))).
  { apply sum_bounds. apply List.Forall_map. exact Hdist. }
  rewrite length_map, Hlen in Hsum.
  pose proof (filter_length_le home_or_safe (pawns p)) as Hf. rewrite Hlen in Hf.
  destruct (all_pawns_in_home p); lia.
Qed.

Lemma opponent_scores_bounded (d : gmap PlayerColor Player) :
  map_Forall (fun _ o => reference_player distance_to_home o) d ->
  Forall (fun x => 0 <= x <= 400) (map score (values d)).
Proof.
  intros Hall. apply List.Forall_map. unfold values.
  apply List.Forall_map. rewrite map_Forall_to_list in Hall.
  eapply Forall_impl; [exact Hall|].
  intros [c o] Ho. apply reference_player_score. exact Ho.
Qed.

Lemma values_length (d : gmap PlayerColor Player) :
  Z.of_nat (length (map score (values d))) = dict_len d.
Proof.
  unfold values, dict_len.
  rewrite length_map, length_fmap, length_map_to_list. reflexivity.
Qed.

(** C9. When the acting player and every opponent have four pawns at
    distances between 0 and 65, the reward lies between 0 and 400 times the
    number of opponents, that is, inside [range(1 + len(view.opponents))]. *)
Theorem calculate_within_range (view : PlayerView) :
  reference_player distance_to_home (player view) ->
  map_Forall (fun _ o => reference_player distance_to_home o) (opponents view) ->
  (0 <= calculate distance_to_home view
   <= 400 * inject_Z (dict_len (opponents view)))%Q
  /\ (fst (range (1 + dict_len (opponents view)))
      <= calculate distance_to_home view
      <= snd (range (1 + dict_len (opponents view))))%Q.
Proof.
  intros Hp Ho.
  assert (Hz : 0 <= _reward distance_to_home view
               <= 400 * dict_len (opponents view)).
  { rewrite reward_is_clamped. unfold raw_reward.
    pose proof (reference_player_score _ Hp) as HS.
    pose proof (sum_bounds 0 400 _ (opponent_scores_bounded _ Ho)) as HO.
    rewrite values_length in HO.
    assert (0 <= dict_len (opponents view)) by (unfold dict_len; lia).
    nia. }
  assert (Hq : (0 <= calculate distance_to_home view
                <= 400 * inject_Z (dict_len (opponents view)))%Q).
  { unfold calculate, float_of_int. split.
    - change 0%Q with (inject_Z 0). rewrite <- Zle_Qle. lia.
    - change 400%Q with (inject_Z 400). rewrite <- inject_Z_mult, <- Zle_Qle. lia. }
  split; [exact Hq|].
  rewrite range_unfold.
  cbn [fst snd].
  replace (1 + dict_len (opponents view) - 1) with (dict_len (opponents view)) by lia.
  exact Hq.
Qed.
End Range.

(** ** The stable descending sort *)

Section SortFacts.
Import Py.
Context {A : Type} (key : A -> float).

Lemma float_lt_true (a b : float) : float_lt a b = true <-> (a < b)%Q.
Proof.
  unfold float_lt. rewrite Qlt_alt. destruct (a ?= b)%Q; split; congruence.
Qed.

Lemma float_lt_false (a b : float) : float_lt a b = false <-> (b <= a)%Q.
Proof.
  split.
  - intros H. apply Qnot_lt_le. rewrite <- float_lt_true. congruence.
  - intros H. destruct (float_lt a b) eqn:E; [|reflexivity].
    apply float_lt_true in E. exfalso. exact (Qle_not_lt _ _ H E).
Qed.

Lemma rev_reverse (xs : list A) : rev xs = reverse xs.
Proof. unfold reverse. apply rev_alt. Qed.

Lemma first_maximum_exists (xs : list A) :
  xs <> [] -> exists pre e post, first_maximum key xs pre e post.
Proof.
  induction xs as [|x xs IH]; [congruence|]. intros _.
  destruct xs as [|y ys].
  - exists [], x, []. repeat split; constructor.
  - destruct IH as (pre & e & post & Heq & Hpre & Hpost); [congruence|].
    destruct (Qlt_le_dec (key x) (key e)) as [Hlt|Hle].
    + exists (x :: pre), e, post. rewrite Heq. repeat split; [|exact Hpost].
      constructor; assumption.
    + exists [], x, (y :: ys). repeat split; [constructor|].
      rewrite Heq. apply Forall_app. split.
      * eapply Forall_impl; [exact Hpre|]. intros z Hz. cbv beta in *.
        apply Qlt_le_weak. eapply Qlt_le_trans; eassumption.
      * constructor; [exact Hle|].
        eapply Forall_impl; [exact Hpost|]. intros z Hz. cbv beta in *.
        eapply Qle_trans; eassumption.
Qed.

Lemma insert_Forall (P : A -> Prop) (x : A) (s : list A) :
  P x -> Forall P s -> Forall P (insert key x s).
Proof.
  intros Hx. induction 1 as [|y s Hy Hs IH]; simpl.
  - repeat constructor. exact Hx.
  - destruct (float_lt (key y) (key x)); repeat constructor; assumption.
Qed.

Lemma stable_sort_Forall (P : A -> Prop) (xs : list A) :
  Forall P xs -> Forall P (stable_sort key xs).
Proof.
  induction 1 as [|x xs Hx _ IH]; simpl; [constructor|].
  apply insert_Forall; assumption.
Qed.

(** An item inserted below the last one leaves the last one in place. *)
Lemma insert_last_keep (x e : A) (s : list A) :
  last s = Some e -> (key x <= key e)%Q -> last (insert key x s) = Some e.
Proof.
  intros Hlast Hle. induction s as [|y s IH]; [discriminate|].
  simpl. destruct (float_lt (key y) (key x)) eqn:E.
  - destruct s as [|z s].
    + simpl in Hlast. injection Hlast as ->.
      apply float_lt_true in E. exfalso. exact (Qle_not_lt _ _ Hle E).
    + rewrite last_cons_cons in Hlast. specialize (IH Hlast).
      destruct (insert key x (z :: s)) as [|w t] eqn:Ei; [discriminate|].
      rewrite last_cons_cons. exact IH.
  - rewrite last_cons_cons. exact Hlast.
Qed.

(** An item above all the others is inserted at the end. *)
Lemma insert_last_top (x : A) (s : list A) :
  Forall (fun y => (key y < key x)%Q) s -> last (insert key x s) = Some x.
Proof.
  induction 1 as [|y s Hy _ IH]; simpl; [reflexivity|].
  apply float_lt_true in Hy. rewrite Hy.
  destruct (insert key x s) as [|w t] eqn:Ei; [discriminate|].
  rewrite last_cons_cons. exact IH.
Qed.

Lemma stable_sort_last (before : list A) (e : A) (after : list A) :
  Forall (fun x => (key x <= key e)%Q) before ->
  Forall (fun x => (key x < key e)%Q) after ->
  last (stable_sort key (before ++ e :: after)) = Some e.
Proof.
  intros Hb Ha. induction Hb as [|x before Hx _ IH]; simpl.
  - apply insert_last_top. apply stable_sort_Forall. exact Ha.
  - apply insert_last_keep; assumption.
Qed.

(** The descending sort brings the first item of greatest key to the top. *)
Lemma sort_reverse_head (xs pre : list A) (e : A) (post : list A) :
  first_maximum key xs pre e post -> item0 (sort_reverse key xs) = Ok e.
Proof.
  intros (-> & Hpre & Hpost).
  assert (Hlast : last (stable_sort key (rev (pre ++ e :: post))) = Some e).
  { rewrite rev_app_distr. cbn [rev]. rewrite <- app_assoc. cbn [app].
    apply stable_sort_last; rewrite rev_reverse; apply Forall_reverse; assumption. }
  unfold sort_reverse. rewrite rev_reverse.
  rewrite <- head_reverse in Hlast.
  destruct (reverse (stable_sort key (rev (pre ++ e :: post)))); [discriminate|].
  injection Hlast as ->. reflexivity.
Qed.

Lemma sort_reverse_nil : sort_reverse key [] = [].
Proof. reflexivity. Qed.
End SortFacts.

Section SortStability.
Import Py.
Context {A : Type} (key : A -> float).

Lemma insert_Permutation (x : A) (s : list A) : insert key x s ≡ₚ x :: s.
Proof.
  induction s as [|y s IH]; simpl; [reflexivity|].
  destruct (float_lt (key y) (key x)); [|reflexivity].
  rewrite IH. apply perm_swap.
Qed.

Lemma stable_sort_Permutation (xs : list A) : stable_sort key xs ≡ₚ xs.
Proof.
  induction xs as [|x xs IH]; simpl; [reflexivity|].
  rewrite insert_Permutation, IH. reflexivity.
Qed.

Lemma sort_reverse_Permutation (xs : list A) : sort_reverse key xs ≡ₚ xs.
Proof.
  unfold sort_reverse. rewrite !rev_reverse.
  rewrite reverse_Permutation, stable_sort_Permutation. apply reverse_Permutation.
Qed.

(** Inserting an item never moves it behind an item of the same key. *)
Lemma insert_with_key (c : float) (x : A) (s : list A) :
  with_key key c (insert key x s) = with_key key c (x :: s).
Proof.
  unfold with_key. induction s as [|y s IH]; simpl; [reflexivity|].
  destruct (float_lt (key y) (key x)) eqn:E; [|reflexivity].
  simpl. rewrite IH. simpl.
  destruct (Qeq_bool (key x) c) eqn:Ex, (Qeq_bool (key y) c) eqn:Ey; try reflexivity.
  apply Qeq_bool_iff in Ex, Ey. apply float_lt_true in E.
  rewrite Ex, Ey in E. exfalso. exact (Qlt_irrefl _ E).
Qed.

Lemma stable_sort_with_key (c : float) (xs : list A) :
  with_key key c (stable_sort key xs) = with_key key c xs.
Proof.
  induction xs as [|x xs IH]; simpl; [reflexivity|].
  rewrite insert_with_key. unfold with_key in *. simpl. rewrite IH. reflexivity.
Qed.

(** Stability: the items of any one key keep their order. *)
Lemma sort_reverse_with_key (c : float) (xs : list A) :
  with_key key c (sort_reverse key xs) = with_key key c xs.
Proof.
  unfold sort_reverse.
  change (with_key key c (rev (stable_sort key (rev xs))))
    with (List.filter (fun x => Qeq_bool (key x) c) (rev (stable_sort key (rev xs)))).
  rewrite filter_rev. fold (with_key key c (stable_sort key (rev xs))).
  rewrite stable_sort_with_key. unfold with_key.
  rewrite filter_rev, rev_involutive. reflexivity.
Qed.

Lemma insert_Sorted (x : A) (s : list A) :
  Sorted (fun a b => (key a <= key b)%Q) s ->
  Sorted (fun a b => (key a <= key b)%Q) (insert key x s).
Proof.
  induction 1 as [|y s Hs IH Hhd]; simpl.
  - repeat constructor.
  - destruct (float_lt (key y) (key x)) eqn:E.
    + constructor; [exact IH|].
      apply float_lt_true, Qlt_le_weak in E.
      destruct Hhd as [|z s Hz]; simpl.
      * repeat constructor. exact E.
      * destruct (float_lt (key z) (key x)); constructor; assumption.
    + apply float_lt_false in E. repeat constructor; assumption.
Qed.

Lemma stable_sort_Sorted (xs : list A) :
  Sorted (fun a b => (key a <= key b)%Q) (stable_sort key xs).
Proof.
  induction xs as [|x xs IH]; simpl; [constructor|].
  apply insert_Sorted, IH.
Qed.

(** The outcome is in descending order of the key. *)
Lemma sort_reverse_Sorted (xs : list A) :
  Sorted (fun a b => (key b <= key a)%Q) (sort_reverse key xs).
Proof.
  unfold sort_reverse. rewrite rev_reverse.
  apply (Sorted_reverse (fun a b => (key a <= key b)%Q)), stable_sort_Sorted.
Qed.
End SortStability.

(** ** Choosing the best move *)

Section FirstMaximum.
Import Py.
Context {A B : Type} (f : A -> B) (key : B -> float).

Lemma first_maximum_map (xs pre : list A) (e : A) (post : list A) :
  first_maximum (fun x => key (f x)) xs pre e post ->
  first_maximum key (map f xs) (map f pre) (f e) (map f post).
Proof.
  intros (-> & Hpre & Hpost). unfold first_maximum.
  rewrite map_app. cbn [map]. repeat split; apply List.Forall_map; assumption.
Qed.

Lemma first_maximum_greatest (xs pre : list A) (e : A) (post : list A) (x : A) :
  first_maximum (fun x => key (f x)) xs pre e post ->
  x ∈ xs -> (key (f x) <= key (f e))%Q.
Proof.
  intros (-> & Hpre & Hpost) Hx.
  rewrite elem_of_app, elem_of_cons in Hx.
  rewrite Forall_forall in Hpre, Hpost.
  destruct Hx as [Hx|[->|Hx]].
  - apply Qlt_le_weak, Hpre, Hx.
  - apply Qle_refl.
  - apply Hpost, Hx.
Qed.

Lemma first_maximum_earlier (xs pre : list A) (e : A) (post : list A)
    (k : nat) (x : A) :
  first_maximum (fun x => key (f x)) xs pre e post ->
  (k < length pre)%nat -> xs !! k = Some x -> (key (f x) < key (f e))%Q.
Proof.
  intros (-> & Hpre & _) Hk Hx.
  rewrite lookup_app_l in Hx by exact Hk.
  rewrite Forall_forall in Hpre. apply Hpre.
  eapply list_elem_of_lookup_2, Hx.
Qed.

Lemma first_maximum_lookup (xs pre : list A) (e : A) (post : list A) :
  first_maximum (fun x => key (f x)) xs pre e post -> xs !! length pre = Some e.
Proof. intros (-> & _). apply list_lookup_middle. reflexivity. Qed.
End FirstMaximum.

Section ChooseMove.
Import Py Game RewardInputSource.
Context {Move : Type}.
Variable calculate : PlayerView -> Move -> Evaluator Move -> Move * float.

Lemma choose_move_first_maximum (mode : GameMode) (view : PlayerView)
    (legal_moves : list Move) (evaluator : Evaluator Move)
    (pre : list Move) (move : Move) (post : list Move) :
  first_maximum (move_score calculate view evaluator) legal_moves pre move post ->
  choose_move calculate mode view legal_moves evaluator
  = Ok (fst (calculate view move evaluator)).
Proof.
  intros Hmax. unfold choose_move, evaluate.
  rewrite (sort_reverse_head (fun e => snd e) _ _ _ _
             (first_maximum_map (fun m => calculate view m evaluator)
                                (fun e => snd e) _ _ _ _ Hmax)).
  reflexivity.
Qed.

Lemma choose_move_empty (mode : GameMode) (view : PlayerView)
    (evaluator : Evaluator Move) :
  choose_move calculate mode view [] evaluator = Raise IndexError.
Proof. reflexivity. Qed.

(** C3, as amended. For a scoring method that hands back the move it was
    given, with scores that are numbers, [choose_move] ranks the evaluated
    moves with a stable descending sort: the ranking is a rearrangement of
    the evaluated pairs in descending order of score in which the pairs of
    any one score keep the order of [legal_moves].  The move returned is the
    first of [legal_moves] that reaches the greatest score; so of two moves
    with the same, greatest score the later one is never chosen, and the
    earlier one is chosen unless a move before it has that score too. *)
Theorem choose_move_stable_tie_break (mode : GameMode) (view : PlayerView)
    (legal_moves : list Move) (evaluator : Evaluator Move) :
  (forall v m e, fst (calculate v m e) = m) ->
  legal_moves <> [] ->
  let score := move_score calculate view evaluator in
  let evaluated := evaluate calculate view legal_moves evaluator in
  let ranked := sort_reverse (fun e => snd e) evaluated in
  (ranked ≡ₚ evaluated
   /\ Sorted (fun a b => (snd b <= snd a)%Q) ranked
   /\ forall c, with_key (fun e => snd e) c ranked = with_key (fun e => snd e) c evaluated)
  /\ exists (n : nat) (move : Move),
      legal_moves !! n = Some move
      /\ choose_move calculate mode view legal_moves evaluator = Ok move
      /\ (forall m, m ∈ legal_moves -> (score m <= score move)%Q)
      /\ (forall k m, (k < n)%nat -> legal_moves !! k = Some m ->
                      (score m < score move)%Q)
      /\ (forall i j mi mj,
             (i < j)%nat ->
             legal_moves !! i = Some mi -> legal_moves !! j = Some mj ->
             (score mi == score mj)%Q ->
             (forall m, m ∈ legal_moves -> (score m <= score mi)%Q) ->
             (n <= i)%nat
             /\ (score move == score mi)%Q
             /\ ((forall k m, (k < i)%nat -> legal_moves !! k = Some m ->
                              (score m < score mi)%Q) ->
                 n = i /\ move = mi)).
Proof.
  intros Hecho Hne score evaluated ranked. split.
  - split; [apply sort_reverse_Permutation|].
    split; [apply (sort_reverse_Sorted (fun e : Move * float => snd e))|].
    intros c. apply sort_reverse_with_key.
  - destruct (first_maximum_exists score legal_moves Hne)
      as (pre & move & post & Hmax).
    pose proof (first_maximum_lookup (fun m => m) score _ _ _ _ Hmax) as Hn.
    exists (length pre), move. split; [exact Hn|].
    split; [rewrite (choose_move_first_maximum mode _ _ _ _ _ _ Hmax), Hecho;
            reflexivity|].
    split; [intros m; apply (first_maximum_greatest (fun m => m) score _ _ _ _ m Hmax)|].
    split; [intros k m; apply (first_maximum_earlier (fun m => m) score _ _ _ _ k m Hmax)|].
    intros i j mi mj Hij Hi Hj Htie Htop.
    assert (Hmove : (score mi <= score move)%Q).
    { apply (first_maximum_greatest (fun m => m) score _ _ _ _ mi Hmax).
      eapply list_elem_of_lookup_2, Hi. }
    assert (Hmi : (score move <= score mi)%Q).
    { apply Htop. eapply list_elem_of_lookup_2, Hn. }
    assert (Hni : (length pre <= i)%nat).
    { destruct (le_lt_dec (length pre) i) as [Hle|Hlt]; [exact Hle|].
      pose proof (first_maximum_earlier (fun m => m) score _ _ _ _ i mi Hmax Hlt Hi) as Hlt'.
      exfalso. exact (Qle_not_lt _ _ Hmi Hlt'). }
    split; [exact Hni|]. split; [apply Qle_antisym; assumption|].
    intros Hfirst.
    destruct (le_lt_dec i (length pre)) as [Hle|Hlt].
    + assert (length pre = i) as Heq by lia. split; [exact Heq|].
      rewrite Heq in Hn. congruence.
    + exfalso. exact (Qle_not_lt _ _ Hmove (Hfirst _ _ Hlt Hn)).
Qed.
End ChooseMove.

Section ChooseMoveV1.
Import Py Game.
Context {Move : Type}.
Variable distance_to_home : Pawn -> Z.

(** C4. For a non-empty list of legal moves, [RewardV1InputSource.choose_move]
    returns one of the legal moves, and no legal move leads to a view with a
    greater reward. *)
Theorem choose_move_returns_best_legal_move (mode : GameMode)
    (view : PlayerView) (legal_moves : list Move) (evaluator : Evaluator Move) :
  legal_moves <> [] ->
  exists move : Move,
    RewardV1InputSource.choose_move distance_to_home mode view legal_moves evaluator
    = Ok move
    /\ move ∈ legal_moves
    /\ forall m, m ∈ legal_moves ->
         (RewardCalculatorV1.calculate distance_to_home (evaluator view m)
          <= RewardCalculatorV1.calculate distance_to_home (evaluator view move))%Q.
Proof.
  intros Hne.
  pose (hook := @RewardV1InputSource.calculate Move distance_to_home).
  destruct (first_maximum_exists (move_score hook view evaluator) legal_moves Hne)
    as (pre & move & post & Hmax).
  exists move. split; [|split].
  - exact (choose_move_first_maximum hook mode _ _ _ _ _ _ Hmax).
  - eapply list_elem_of_lookup_2.
    apply (first_maximum_lookup (fun m => m) (move_score hook view evaluator) _ _ _ _ Hmax).
  - intros m Hm.
    apply (first_maximum_greatest (fun m => m) (move_score hook view evaluator)
             _ _ _ _ m Hmax Hm).
Qed.
End ChooseMoveV1.

(** ** An empty list of legal moves *)

(** C10. With no legal move, [RewardInputSource.choose_move] fails with an
    [IndexError] whatever the scoring method, the view and the evaluator are,
    and [RandomInputSource.choose_move] fails with an [IndexError] and leaves
    the random generator as it found it. *)
Theorem choose_move_empty_raises :
  (forall (Move : Type)
          (calculate : Game.PlayerView -> Move -> Evaluator Move -> Move * Py.float)
          mode view evaluator,
      RewardInputSource.choose_move calculate mode view [] evaluator
      = Py.Raise Py.IndexError)
  /\ (forall (RNG Move : Type) (randbelow : RNG -> nat -> nat * RNG)
             (g : RNG) mode view (unused : Evaluator Move),
         RandomInputSource.choose_move randbelow g mode view [] unused
         = (Py.Raise Py.IndexError, g)).
Proof. split; intros; reflexivity. Qed.

(** ** The factory *)

Section FactoryFacts.
Import Py Factory.
Variable locate : string -> object.

Lemma source_not_a_class (name : string) :
  (forall c, locate name <> PyClass c) -> source locate name = Raise TypeError.
Proof.
  intros Hc. unfold source. destruct (locate name) as [|c|q]; try reflexivity.
  exfalso. exact (Hc c eq_refl).
Qed.

Lemma source_foreign_class (name q : string) :
  locate name = PyClass (Foreign q) -> source locate name = Raise ValueError.
Proof. intros H. unfold source. rewrite H. reflexivity. Qed.

Lemma source_concrete_class (name : string) (c : class) :
  locate name = PyClass c -> derives_from_source c = true -> is_abstract c = false ->
  source locate name = Ok (Instance c).
Proof.
  intros H Hd Ha. unfold source. rewrite H. cbn [issubclass_source]. rewrite Hd.
  cbn [construct]. rewrite Ha. reflexivity.
Qed.
End FactoryFacts.

(** C7. A name that [pydoc.locate] cannot resolve makes [source] fail with a
    [TypeError], raised by [issubclass], where the documentation of [source]
    promises a [ValueError]; so does a name that resolves to an abstract
    source class.  A class that is not a source is refused with a
    [ValueError] and a concrete source class is instantiated. *)
Theorem source_unresolved_name_raises_TypeError :
  Factory.source Factory.apologies_namespace "NotARealClass"
  = Py.Raise Py.TypeError
  /\ Factory.source Factory.apologies_namespace "apologies.source.RewardInputSource"
     = Py.Raise Py.TypeError
  /\ Factory.source Factory.apologies_namespace "apologies.reward.RewardCalculatorV1"
     = Py.Raise Py.ValueError
  /\ Factory.source Factory.apologies_namespace "apologies.source.RandomInputSource"
     = Py.Ok (Factory.Instance Factory.RandomInputSource).
Proof. repeat split; vm_compute; reflexivity. Qed.

Lemma player_score_three_terms_witness :
  RewardCalculatorV1._distance_incentive Sample.distance Sample.winner = 260
  /\ RewardCalculatorV1._safe_incentive Sample.winner = 40
  /\ RewardCalculatorV1._winner_incentive Sample.winner = 100
  /\ RewardCalculatorV1._player_score Sample.distance Sample.winner = 400.
Proof.
  apply (proj2 (player_score_three_terms Sample.distance Sample.winner)).
  - reflexivity.
  - repeat (constructor; [split; reflexivity|]). constructor.
Defined.

Lemma player_score_antitone_in_distance_witness :
  RewardCalculatorV1._player_score Sample.distance Sample.p100
  < RewardCalculatorV1._player_score Sample.distance
      (with_pawn Sample.p100 0 (Game.mkPawn "Yellow" 30 Sample.at_start)).
Proof.
  apply (player_score_antitone_in_distance Sample.distance Sample.p100 0
           (Game.mkPawn "Yellow" 40 Sample.at_start)
           (Game.mkPawn "Yellow" 30 Sample.at_start)).
  - reflexivity.
  - reflexivity.
  - simpl. tauto.
  - simpl. lia.
Defined.

Lemma calculate_comparative_reward_witness :
  RewardCalculatorV1.calculate Sample.distance Sample.two_players = 200%Q
  /\ RewardCalculatorV1.calculate Sample.distance Sample.three_players = 0%Q
  /\ RewardCalculatorV1.calculate Sample.distance Sample.three_players
     = Py.float_of_int
         (Z.max 0 (2 * RewardCalculatorV1._player_score Sample.distance Sample.p100
                   - Py.sum [RewardCalculatorV1._player_score Sample.distance Sample.p200;
                             RewardCalculatorV1._player_score Sample.distance Sample.p150])).
Proof.
  split; [|split].
  - apply (proj1 (proj2 (calculate_comparative_reward Sample.distance Sample.two_players))
             "Yellow" Sample.p100); reflexivity.
  - apply (proj2 (proj2 (calculate_comparative_reward Sample.distance Sample.three_players))
             "Blue" "Green" Sample.p150 Sample.p200); [discriminate | reflexivity ..].
  - apply (proj1 (calculate_comparative_reward Sample.distance Sample.three_players)
             [("Green", Sample.p200); ("Blue", Sample.p150)]).
    + compute_done.
    + reflexivity.
Defined.

Lemma calculate_within_range_witness :
  (0 <= RewardCalculatorV1.calculate Sample.distance Sample.three_players
   <= 400 * inject_Z (Game.dict_len (Game.opponents Sample.three_players)))%Q
  /\ (fst (RewardCalculatorV1.range (1 + Game.dict_len (Game.opponents Sample.three_players)))
      <= RewardCalculatorV1.calculate Sample.distance Sample.three_players
      <= snd (RewardCalculatorV1.range (1 + Game.dict_len (Game.opponents Sample.three_players))))%Q.
Proof.
  assert (Href : forall c ps,
             length ps = 4%nat ->
             Forall (fun p => 0 <= fst p <= 65) ps ->
             reference_player Sample.distance (Sample.squad c ps)).
  { intros c ps Hlen Hps. split.
    - unfold Sample.squad. simpl. rewrite length_map. exact Hlen.
    - unfold Sample.squad. simpl. apply List.Forall_map.
      eapply Forall_impl; [exact Hps|]. intros p Hp. exact Hp. }
  apply (calculate_within_range Sample.distance Sample.three_players).
  - apply Href; [reflexivity|]. repeat (constructor; [simpl; lia|]). constructor.
  - apply map_Forall_insert_2; [|apply map_Forall_singleton].
    + apply Href; [reflexivity|]. repeat (constructor; [simpl; lia|]). constructor.
    + apply Href; [reflexivity|]. repeat (constructor; [simpl; lia|]). constructor.
Defined.

Lemma choose_move_stable_tie_break_witness :
  RewardInputSource.choose_move Sample.level Game.STANDARD Sample.two_players
    [7%nat; 8%nat] Sample.still
  = Py.Ok 7%nat.
Proof.
  destruct (choose_move_stable_tie_break Sample.level Game.STANDARD
              Sample.two_players [7%nat; 8%nat] Sample.still)
    as [_ (n & move & Hn & Hchoice & _ & _ & Htie)];
    [intros v m e; reflexivity | discriminate |].
  destruct (Htie 0%nat 1%nat 7%nat 8%nat) as (_ & _ & Hfirst).
  - lia.
  - reflexivity.
  - reflexivity.
  - reflexivity.
  - intros m _. apply Qle_refl.
  - destruct Hfirst as [_ ->]; [intros k m Hk; lia|]. exact Hchoice.
Defined.

Lemma choose_move_returns_best_legal_move_witness :
  exists move : nat,
    RewardV1InputSource.choose_move Sample.distance Game.ADULT Sample.two_players
      [7%nat; 8%nat] Sample.still
    = Py.Ok move
    /\ move ∈ [7%nat; 8%nat]
    /\ forall m, m ∈ [7%nat; 8%nat] ->
         (RewardCalculatorV1.calculate Sample.distance (Sample.still Sample.two_players m)
          <= RewardCalculatorV1.calculate Sample.distance
               (Sample.still Sample.two_players move))%Q.
Proof.
  apply (choose_move_returns_best_legal_move Sample.distance Game.ADULT
           Sample.two_players [7%nat; 8%nat] Sample.still).
  discriminate.
Defined.

(** * Further properties of the reward *)

Section RewardOrder.
Import Py Game RewardCalculatorV1.
Variable distance_to_home : Pawn -> Z.

Local Abbreviation score := (_player_score distance_to_home).

Lemma dict_len_nonneg (d : gmap PlayerColor Player) : 0 <= dict_len d.
Proof. unfold dict_len. lia. Qed.

Lemma calculate_le (view view' : PlayerView) :
  raw_reward distance_to_home view <= raw_reward distance_to_home view' ->
  (calculate distance_to_home view <= calculate distance_to_home view')%Q.
Proof.
  intros H. unfold calculate, float_of_int.
  rewrite <- Zle_Qle, !reward_is_clamped. lia.
Qed.

(** The scores of the opponents, split at one of them. *)
Lemma opponent_scores_delete (d : gmap PlayerColor Player) (c : PlayerColor)
    (o : Player) :
  d !! c = Some o ->
  sum (map score (values d)) = score o + sum (map score (values (delete c d))).
Proof.
  intros Hc. rewrite <- sum_cons. apply sum_Permutation.
  change (score o :: map score (values (delete c d)))
    with (map score (((c, o) :: map_to_list (delete c d)).*2)).
  apply (fmap_Permutation score). unfold values.
  apply (fmap_Permutation snd). symmetry. apply map_to_list_delete, Hc.
Qed.

(** X1. A view without opponents has reward 0, whatever the position of the
    acting player is. *)
Theorem no_opponents_no_reward (p : Player) :
  calculate distance_to_home (mkPlayerView p ∅) = 0%Q.
Proof.
  unfold calculate. rewrite reward_is_clamped. unfold raw_reward, values, dict_len.
  cbn [opponents]. rewrite map_to_list_empty, map_size_empty. reflexivity.
Qed.

(** X2. The reward never falls when the acting player is replaced by one with
    a score at least as high, the opponents staying as they are. *)
Theorem reward_monotone_in_player_score (view : PlayerView) (p' : Player) :
  score (player view) <= score p' ->
  (calculate distance_to_home view
   <= calculate distance_to_home (mkPlayerView p' (opponents view)))%Q.
Proof.
  intros Hs. apply calculate_le. unfold raw_reward. cbn [player opponents].
  pose proof (dict_len_nonneg (opponents view)). nia.
Qed.

(** X3. The reward never rises when one opponent is replaced, under the same
    color, by a player with a score at least as high. *)
Theorem reward_antitone_in_opponent_score (view : PlayerView)
    (c : PlayerColor) (o o' : Player) :
  opponents view !! c = Some o ->
  score o <= score o' ->
  (calculate distance_to_home (mkPlayerView (player view) (<[c:=o']> (opponents view)))
   <= calculate distance_to_home view)%Q.
Proof.
  intros Hc Hs. apply calculate_le. unfold raw_reward. cbn [player opponents].
  rewrite (opponent_scores_delete (opponents view) c o Hc).
  rewrite (opponent_scores_delete (<[c:=o']> (opponents view)) c o')
    by apply lookup_insert_eq.
  rewrite delete_insert_eq.
  unfold dict_len. rewrite (map_size_insert_Some c o' (opponents view)) by eauto.
  lia.
Qed.

(** X4. In a game of two, the rewards of the two players are never both
    positive: they add up to the distance between the two scores, and the
    player who is not ahead gets 0. *)
Theorem two_player_rewards_are_opposed (a b : Player) (ca cb : PlayerColor) :
  let reward_a := calculate distance_to_home (mkPlayerView a {[ cb := b ]}) in
  let reward_b := calculate distance_to_home (mkPlayerView b {[ ca := a ]}) in
  reward_a = float_of_int (Z.max 0 (score a - score b))
  /\ reward_b = float_of_int (Z.max 0 (score b - score a))
  /\ (reward_a + reward_b == float_of_int (Z.abs (score a - score b)))%Q
  /\ (reward_a = 0%Q \/ reward_b = 0%Q).
Proof.
  assert (Hone : forall (p o : Player) (c : PlayerColor),
             calculate distance_to_home (mkPlayerView p {[ c := o ]})
             = float_of_int (Z.max 0 (score p - score o))).
  { intros p o c. unfold calculate. rewrite reward_is_clamped.
    unfold raw_reward, values, dict_len. cbn [player opponents].
    rewrite map_to_list_singleton, map_size_singleton. cbn [fmap list_fmap snd map].
    rewrite sum_cons, sum_nil. f_equal. lia. }
  cbv zeta. rewrite !Hone. split; [reflexivity|]. split; [reflexivity|]. split.
  - unfold float_of_int. rewrite <- inject_Z_plus.
    apply inject_Z_injective. lia.
  - unfold float_of_int.
    destruct (Z.le_ge_cases (score a) (score b)).
    + left. rewrite Z.max_l by lia. reflexivity.
    + right. rewrite Z.max_l by lia. reflexivity.
Qed.
End RewardOrder.

Section ScoreExtremes.
Import Py Game RewardCalculatorV1.
Variable distance_to_home : Pawn -> Z.

Local Abbreviation score := (_player_score distance_to_home).

Lemma sum_nonneg (xs : list Z) : Forall (fun x => 0 <= x) xs -> 0 <= sum xs.
Proof.
  induction 1 as [|x xs Hx _ IH]; [rewrite sum_nil; lia|].
  rewrite sum_cons. lia.
Qed.

Lemma sum_zero_all_zero (xs : list Z) :
  Forall (fun x => 0 <= x) xs -> sum xs = 0 -> Forall (fun x => x = 0) xs.
Proof.
  induction 1 as [|x xs Hx Hxs IH]; intros Hsum; [constructor|].
  rewrite sum_cons in Hsum. pose proof (sum_nonneg xs Hxs).
  constructor; [lia|]. apply IH. lia.
Qed.

Lemma all_pawns_in_home_Forall (p : Player) :
  all_pawns_in_home p = true <->
  Forall (fun pawn => home (position pawn) = true) (pawns p).
Proof.
  unfold all_pawns_in_home. rewrite forallb_forall, Forall_forall.
  split; intros H x Hx; apply H; apply list_elem_of_In; exact Hx.
Qed.

(** A reference player who has not won scores at most 300. *)
Lemma unfinished_player_score (p : Player) :
  reference_player distance_to_home p -> all_pawns_in_home p = false ->
  0 <= score p <= 300.
Proof.
  intros [Hlen Hdist] Hw. rewrite player_score_unfold, Hw.
  assert (Hsum : 0 * Z.of_nat (length (map distance_to_home (pawns p)))
                 <= sum (map distance_to_home (pawns p))
                 <= 65 * Z.of_nat (length (map distance_to_home (pawns p)))).
  { apply sum_bounds. apply List.Forall_map. exact Hdist. }
  rewrite length_map, Hlen in Hsum.
  pose proof (filter_length_le home_or_safe (pawns p)) as Hf. rewrite Hlen in Hf.
  lia.
Qed.

(** X5. Among the players of the reference configuration, the greatest score,
    400, is reached exactly by the players whose pawns are all in home at
    distance 0. *)
Theorem top_score_only_by_winner (p : Player) :
  reference_player distance_to_home p ->
  (score p = 400
   <-> Forall (fun pawn => home (position pawn) = true /\ distance_to_home pawn = 0)
              (pawns p)).
Proof.
  intros [Hlen Hdist]. split.
  - intros Hs. rewrite player_score_unfold in Hs.
    assert (Hsum : 0 * Z.of_nat (length (map distance_to_home (pawns p)))
                   <= sum (map distance_to_home (pawns p))
                   <= 65 * Z.of_nat (length (map distance_to_home (pawns p)))).
    { apply sum_bounds. apply List.Forall_map. exact Hdist. }
    rewrite length_map, Hlen in Hsum.
    pose proof (filter_length_le home_or_safe (pawns p)) as Hf. rewrite Hlen in Hf.
    assert (Hw : all_pawns_in_home p = true).
    { destruct (all_pawns_in_home p); [reflexivity | lia]. }
    rewrite Hw in Hs.
    assert (Hzero : sum (map distance_to_home (pawns p)) = 0) by lia.
    apply sum_zero_all_zero in Hzero.
    + apply all_pawns_in_home_Forall in Hw.
      apply List.Forall_map in Hzero.
      rewrite Forall_forall in Hw, Hzero. apply Forall_forall.
      intros x Hx. split; [apply Hw | apply Hzero]; exact Hx.
    + apply List.Forall_map. eapply Forall_impl; [exact Hdist|].
      intros x Hx. cbv beta in Hx. lia.
  - intros Hall.
    assert (Hhome : Forall (fun pawn => home (position pawn) = true) (pawns p))
      by (eapply Forall_impl; [exact Hall | intros ? [? ?]; assumption]).
    assert (Hzero : Forall (fun pawn => distance_to_home pawn = 0) (pawns p))
      by (eapply Forall_impl; [exact Hall | intros ? [? ?]; assumption]).
    rewrite player_score_unfold, (sum_map_const _ 0) by exact Hzero.
    rewrite all_home_filter, Hlen, all_home_forallb by exact Hhome. lia.
Qed.

(** X6. A won position is rewarded: when the acting player has the top score
    of 400 and no opponent of the reference configuration has brought all
    pawns home, the reward is at least 100 for each opponent. *)
Theorem won_position_is_rewarded (view : PlayerView) :
  score (player view) = 400 ->
  map_Forall (fun _ o => reference_player distance_to_home o
                         /\ all_pawns_in_home o = false) (opponents view) ->
  (100 * inject_Z (dict_len (opponents view))
   <= calculate distance_to_home view)%Q.
Proof.
  intros HS Hopp.
  assert (Hbound : Forall (fun x => 0 <= x <= 300)
                     (map score (values (opponents view)))).
  { apply List.Forall_map. unfold values. apply List.Forall_map.
    rewrite map_Forall_to_list in Hopp.
    eapply Forall_impl; [exact Hopp|].
    intros [c o] [Href Hw]. apply unfinished_player_score; assumption. }
  pose proof (sum_bounds 0 300 _ Hbound) as HO. rewrite values_length in HO.
  unfold calculate, float_of_int. change 100%Q with (inject_Z 100).
  rewrite <- inject_Z_mult, <- Zle_Qle, reward_is_clamped. unfold raw_reward.
  rewrite HS. lia.
Qed.

(** X7. The upper end of the declared range is reached: a player with four
    pawns in home at distance 0, facing opponents whose four pawns are all 65
    squares from home and neither in home nor safe, gets exactly 400 for each
    opponent, the maximum of [range(1 + len(view.opponents))]. *)
Theorem range_maximum_is_reached (view : PlayerView) :
  length (pawns (player view)) = 4%nat ->
  Forall (fun pawn => home (position pawn) = true /\ distance_to_home pawn = 0)
         (pawns (player view)) ->
  map_Forall (fun _ o =>
                length (pawns o) = 4%nat
                /\ Forall (fun pawn => home_or_safe pawn = false
                                       /\ distance_to_home pawn = 65) (pawns o))
             (opponents view) ->
  calculate distance_to_home view
  = snd (range (1 + dict_len (opponents view))).
Proof.
  intros Hlen Hall Hopp.
  assert (HS : score (player view) = 400).
  { assert (Hhome : Forall (fun pawn => home (position pawn) = true) (pawns (player view)))
      by (eapply Forall_impl; [exact Hall | intros ? [? ?]; assumption]).
    assert (Hzero : Forall (fun pawn => distance_to_home pawn = 0) (pawns (player view)))
      by (eapply Forall_impl; [exact Hall | intros ? [? ?]; assumption]).
    rewrite player_score_unfold, (sum_map_const _ 0) by exact Hzero.
    rewrite all_home_filter, Hlen, all_home_forallb by exact Hhome. lia. }
  assert (HO : sum (map score (values (opponents view))) = 0).
  { rewrite (sum_map_const score 0); [lia|].
    unfold values. apply List.Forall_map. rewrite map_Forall_to_list in Hopp.
    eapply Forall_impl; [exact Hopp|].
    intros [c o] [Hl Hp]. cbn [snd].
    assert (Hfar : Forall (fun pawn => distance_to_home pawn = 65) (pawns o))
      by (eapply Forall_impl; [exact Hp | intros ? [? ?]; assumption]).
    assert (Hout : List.filter home_or_safe (pawns o) = []).
    { clear Hfar Hl. induction Hp as [|x xs [Hx _] _ IH]; simpl; [reflexivity|].
      rewrite Hx. exact IH. }
    assert (Hw : all_pawns_in_home o = false).
    { destruct (pawns o) as [|x xs] eqn:E; [discriminate|].
      unfold all_pawns_in_home. rewrite E. simpl.
      apply Forall_cons in Hp as [[Hx _] _]. unfold home_or_safe in Hx.
      destruct (home (position x)); [discriminate | reflexivity]. }
    rewrite player_score_unfold, (sum_map_const _ 65) by exact Hfar.
    rewrite Hout, Hw, Hl. reflexivity. }
  unfold calculate. rewrite reward_is_clamped. unfold raw_reward. rewrite HS, HO.
  unfold range. cbn [snd]. f_equal.
  pose proof (dict_len_nonneg (opponents view)). lia.
Qed.
End ScoreExtremes.

(** * Further properties of the input sources *)

Section RandomChoice.
Import Py Game.
Context {RNG Move : Type} (randbelow : RNG -> nat -> nat * RNG).

(** X9. When the generator draws below the bound it is given,
    [RandomInputSource.choose_move] returns, for a non-empty list, the legal
    move at the index drawn for the length of the list, and the generator is
    left in the state after that one draw. *)
Theorem random_choose_move_is_legal (g : RNG) (mode : GameMode)
    (view : PlayerView) (legal_moves : list Move) (unused : Evaluator Move) :
  (forall g n, (0 < n)%nat -> (fst (randbelow g n) < n)%nat) ->
  legal_moves <> [] ->
  exists move : Move,
    RandomInputSource.choose_move randbelow g mode view legal_moves unused
    = (Ok move, snd (randbelow g (length legal_moves)))
    /\ legal_moves !! fst (randbelow g (length legal_moves)) = Some move
    /\ move ∈ legal_moves.
Proof.
  intros Hdraw Hne.
  unfold RandomInputSource.choose_move, Random.choice.
  destruct legal_moves as [|m ms]; [congruence|].
  specialize (Hdraw g (length (m :: ms))).
  destruct (randbelow g (length (m :: ms))) as [i g'] eqn:E. cbn [fst snd] in *.
  destruct (lookup_lt_is_Some_2 (m :: ms) i) as [move Hmove].
  { apply Hdraw. simpl. lia. }
  exists move. rewrite Hmove. split; [reflexivity|]. split; [reflexivity|].
  eapply list_elem_of_lookup_2, Hmove.
Qed.
End RandomChoice.

Section Candidates.
Import Py Game.
Context {Move : Type}.
Variable distance_to_home : Pawn -> Z.

(** The reward of the view that a move leads to. *)
Local Abbreviation reward_after view evaluator m :=
  (RewardCalculatorV1.calculate distance_to_home (evaluator view m)).

(** X10. The reward reached by [RewardV1InputSource.choose_move] never falls
    when legal moves are added, and it is the same for two lists with the
    same moves in a different order: the order decides between ties only. *)
Theorem chosen_reward_grows_with_candidates (mode : GameMode)
    (view : PlayerView) (evaluator : Evaluator Move)
    (legal_moves legal_moves' : list Move) :
  legal_moves <> [] ->
  (forall m, m ∈ legal_moves -> m ∈ legal_moves') ->
  exists move move' : Move,
    RewardV1InputSource.choose_move distance_to_home mode view legal_moves evaluator
    = Ok move
    /\ RewardV1InputSource.choose_move distance_to_home mode view legal_moves' evaluator
       = Ok move'
    /\ (reward_after view evaluator move <= reward_after view evaluator move')%Q
    /\ (legal_moves ≡ₚ legal_moves' ->
        (reward_after view evaluator move == reward_after view evaluator move')%Q).
Proof.
  intros Hne Hsub.
  pose (hook := @RewardV1InputSource.calculate Move distance_to_home).
  assert (Hne' : legal_moves' <> []).
  { destruct legal_moves as [|m ms]; [congruence|].
    intros ->. specialize (Hsub m). rewrite elem_of_cons in Hsub.
    specialize (Hsub (or_introl eq_refl)). inversion Hsub. }
  destruct (first_maximum_exists (move_score hook view evaluator) legal_moves Hne)
    as (pre & move & post & Hmax).
  destruct (first_maximum_exists (move_score hook view evaluator) legal_moves' Hne')
    as (pre' & move' & post' & Hmax').
  assert (Hin : move ∈ legal_moves).
  { eapply list_elem_of_lookup_2.
    apply (first_maximum_lookup (fun m => m) (move_score hook view evaluator) _ _ _ _ Hmax). }
  assert (Hin' : move' ∈ legal_moves').
  { eapply list_elem_of_lookup_2.
    apply (first_maximum_lookup (fun m => m) (move_score hook view evaluator) _ _ _ _ Hmax'). }
  assert (Hle : (reward_after view evaluator move <= reward_after view evaluator move')%Q).
  { apply (first_maximum_greatest (fun m => m) (move_score hook view evaluator)
             _ _ _ _ move Hmax'). apply Hsub, Hin. }
  exists move, move'.
  split; [exact (choose_move_first_maximum hook mode _ _ _ _ _ _ Hmax)|].
  split; [exact (choose_move_first_maximum hook mode _ _ _ _ _ _ Hmax')|].
  split; [exact Hle|].
  intros Hperm. apply Qle_antisym; [exact Hle|].
  apply (first_maximum_greatest (fun m => m) (move_score hook view evaluator)
           _ _ _ _ move' Hmax).
  rewrite Hperm. exact Hin'.
Qed.
End Candidates.

(** * Worked instances of the further properties *)

Lemma reward_monotone_in_player_score_witness :
  (RewardCalculatorV1.calculate Sample.distance Sample.two_players
   <= RewardCalculatorV1.calculate Sample.distance
        (Game.mkPlayerView Sample.winner (Game.opponents Sample.two_players)))%Q.
Proof.
  apply (reward_monotone_in_player_score Sample.distance Sample.two_players
           Sample.winner).
  vm_compute. discriminate.
Defined.

Lemma reward_antitone_in_opponent_score_witness :
  (RewardCalculatorV1.calculate Sample.distance
     (Game.mkPlayerView (Game.player Sample.three_players)
        (<["Blue":=Sample.p300]> (Game.opponents Sample.three_players)))
   <= RewardCalculatorV1.calculate Sample.distance Sample.three_players)%Q.
Proof.
  apply (reward_antitone_in_opponent_score Sample.distance Sample.three_players
           "Blue" Sample.p150 Sample.p300).
  - reflexivity.
  - vm_compute. discriminate.
Defined.

Lemma top_score_only_by_winner_witness :
  RewardCalculatorV1._player_score Sample.distance Sample.winner = 400
  <-> Forall (fun pawn => Game.home (Game.position pawn) = true
                          /\ Sample.distance pawn = 0)
             (Game.pawns Sample.winner).
Proof.
  apply (top_score_only_by_winner Sample.distance Sample.winner).
  split; [reflexivity|].
  repeat (constructor; [simpl; lia|]). constructor.
Defined.

Lemma won_position_is_rewarded_witness :
  (100 * inject_Z (Game.dict_len (Game.opponents Table.won_game))
   <= RewardCalculatorV1.calculate Sample.distance Table.won_game)%Q.
Proof.
  apply (won_position_is_rewarded Sample.distance Table.won_game).
  - reflexivity.
  - apply map_Forall_singleton. split; [|reflexivity].
    split; [reflexivity|].
    repeat (constructor; [simpl; lia|]). constructor.
Defined.

Lemma range_maximum_is_reached_witness :
  RewardCalculatorV1.calculate Sample.distance Table.won_game
  = snd (RewardCalculatorV1.range (1 + Game.dict_len (Game.opponents Table.won_game))).
Proof.
  apply (range_maximum_is_reached Sample.distance Table.won_game).
  - reflexivity.
  - repeat (constructor; [split; reflexivity|]). constructor.
  - apply map_Forall_singleton. split; [reflexivity|].
    repeat (constructor; [split; reflexivity|]). constructor.
Defined.

Lemma random_choose_move_is_legal_witness :
  exists move : nat,
    RandomInputSource.choose_move Table.counter 1%nat Game.STANDARD
      Sample.two_players [7%nat; 8%nat; 9%nat] Sample.still
    = (Py.Ok move, snd (Table.counter 1%nat (length [7%nat; 8%nat; 9%nat])))
    /\ [7%nat; 8%nat; 9%nat] !! fst (Table.counter 1%nat (length [7%nat; 8%nat; 9%nat]))
       = Some move
    /\ move ∈ [7%nat; 8%nat; 9%nat].
Proof.
  apply (random_choose_move_is_legal Table.counter 1%nat Game.STANDARD
           Sample.two_players [7%nat; 8%nat; 9%nat] Sample.still).
  - intros g n Hn. simpl. lia.
  - discriminate.
Defined.

Lemma chosen_reward_grows_with_candidates_witness :
  exists move move' : nat,
    RewardV1InputSource.choose_move Sample.distance Game.ADULT Sample.two_players
      [7%nat; 8%nat] Sample.still
    = Py.Ok move
    /\ RewardV1InputSource.choose_move Sample.distance Game.ADULT Sample.two_players
         [8%nat; 7%nat] Sample.still
       = Py.Ok move'
    /\ (RewardCalculatorV1.calculate Sample.distance (Sample.still Sample.two_players move)
        <= RewardCalculatorV1.calculate Sample.distance
             (Sample.still Sample.two_players move'))%Q
    /\ ([7%nat; 8%nat] ≡ₚ [8%nat; 7%nat] ->
        (RewardCalculatorV1.calculate Sample.distance (Sample.still Sample.two_players move)
         == RewardCalculatorV1.calculate Sample.distance
              (Sample.still Sample.two_players move'))%Q).
Proof.
  apply (chosen_reward_grows_with_candidates Sample.distance Game.ADULT
           Sample.two_players Sample.still [7%nat; 8%nat] [8%nat; 7%nat]).
  - discriminate.
  - intros m Hm. rewrite !elem_of_cons in Hm |- *. tauto.
Defined.

(** * Single pawn moves *)

Section PawnMoves.
Import Py Game RewardCalculatorV1.
Variable distance_to_home : Pawn -> Z.

Local Abbreviation score := (_player_score distance_to_home).

Lemma sum_app (xs ys : list Z) : sum (xs ++ ys) = sum xs + sum ys.
Proof.
  induction xs as [|x xs IH]; cbn [app]; [rewrite sum_nil; lia|].
  rewrite !sum_cons, IH. lia.
Qed.

(** X12. A pawn that enters the safe zone earns its player 10 points on top
    of the distance gained: replacing a pawn that is neither in home nor safe
    by a pawn that is safe but not in home raises the score by 10 plus the
    difference of the two distances. *)
Theorem entering_safe_zone_gains_10
    (player : Player) (i : nat) (pawn pawn' : Pawn) :
  pawns player !! i = Some pawn ->
  home (position pawn) = false -> safe (position pawn) = None ->
  home (position pawn') = false -> safe (position pawn') <> None ->
  score (with_pawn player i pawn')
  = score player + 10 + (distance_to_home pawn - distance_to_home pawn').
Proof.
  intros Hi Hh Hs Hh' Hs'.
  unfold _player_score, _distance_incentive, _safe_incentive, _winner_incentive,
    all_pawns_in_home, with_pawn. cbn [pawns].
  rewrite (sum_map_insert distance_to_home _ _ _ _ Hi).
  rewrite (sum_map_insert
             (fun p => if home (position p) || bool_decide (safe (position p) <> None)
                       then 10 else 0) _ _ _ _ Hi).
  rewrite (forallb_map _ (<[i:=pawn']> (pawns player))).
  rewrite (map_insert_same (fun p => home (position p)) _ _ _ _ Hi)
    by (rewrite Hh, Hh'; reflexivity).
  rewrite <- forallb_map.
  rewrite Hh, Hh', Hs.
  rewrite (bool_decide_eq_true_2 _ Hs').
  rewrite (bool_decide_eq_false_2 (None <> None)) by congruence.
  cbn [orb]. lia.
Qed.

Lemma all_home_app (c : PlayerColor) (pre post : list Pawn) (x : Pawn) :
  Forall (fun pawn => home (position pawn) = true) pre ->
  Forall (fun pawn => home (position pawn) = true) post ->
  all_pawns_in_home (mkPlayer c (pre ++ x :: post)) = home (position x).
Proof.
  intros Hpre Hpost. unfold all_pawns_in_home. cbn [pawns].
  rewrite forallb_app. cbn [forallb].
  assert (Hall : forall xs, Forall (fun pawn => home (position pawn) = true) xs ->
                            forallb (fun pawn => home (position pawn)) xs = true).
  { induction 1 as [|y ys Hy _ IH]; simpl; [reflexivity|]. rewrite Hy, IH. reflexivity. }
  rewrite (Hall pre Hpre), (Hall post Hpost).
  destruct (home (position x)); reflexivity.
Qed.

(** X13. Bringing the last pawn home is worth the winner incentive: when all
    the other pawns are in home, replacing a pawn that is not in home by one
    that is raises the score by the distance gained plus 100, and by 10 more
    if the pawn was not yet in the safe zone. *)
Theorem last_pawn_home_gains_100
    (c : PlayerColor) (pre post : list Pawn) (pawn pawn' : Pawn) :
  Forall (fun x => home (position x) = true) pre ->
  Forall (fun x => home (position x) = true) post ->
  home (position pawn) = false ->
  home (position pawn') = true ->
  score (mkPlayer c (pre ++ pawn' :: post))
  = score (mkPlayer c (pre ++ pawn :: post))
    + (distance_to_home pawn - distance_to_home pawn')
    + 100
    + (if home_or_safe pawn then 0 else 10).
Proof.
  intros Hpre Hpost Hh Hh'.
  rewrite !player_score_unfold.
  rewrite (all_home_app c pre post pawn' Hpre Hpost), Hh'.
  rewrite (all_home_app c pre post pawn Hpre Hpost), Hh.
  cbn [pawns]. rewrite !map_app, !List.filter_app, !length_app. cbn [map List.filter].
  rewrite !sum_app, !sum_cons.
  assert (Hflag : home_or_safe pawn' = true).
  { unfold home_or_safe. rewrite Hh'. reflexivity. }
  rewrite Hflag. destruct (home_or_safe pawn); cbn [length]; lia.
Qed.
End PawnMoves.

Lemma entering_safe_zone_gains_10_witness :
  RewardCalculatorV1._player_score Sample.distance
    (with_pawn Sample.p100 0 (Game.mkPawn "Yellow" 3 Sample.in_safe))
  = RewardCalculatorV1._player_score Sample.distance Sample.p100 + 10
    + (Sample.distance (Game.mkPawn "Yellow" 40 Sample.at_start)
       - Sample.distance (Game.mkPawn "Yellow" 3 Sample.in_safe)).
Proof.
  apply (entering_safe_zone_gains_10 Sample.distance Sample.p100 0
           (Game.mkPawn "Yellow" 40 Sample.at_start)
           (Game.mkPawn "Yellow" 3 Sample.in_safe)).
  - reflexivity.
  - reflexivity.
  - reflexivity.
  - reflexivity.
  - simpl. discriminate.
Defined.

Lemma last_pawn_home_gains_100_witness :
  RewardCalculatorV1._player_score Sample.distance
    (Game.mkPlayer "Red"
       ([Game.mkPawn "Red" 0 Sample.in_home; Game.mkPawn "Red" 0 Sample.in_home]
        ++ Game.mkPawn "Red" 0 Sample.in_home :: [Game.mkPawn "Red" 0 Sample.in_home]))
  = RewardCalculatorV1._player_score Sample.distance
      (Game.mkPlayer "Red"
         ([Game.mkPawn "Red" 0 Sample.in_home; Game.mkPawn "Red" 0 Sample.in_home]
          ++ Game.mkPawn "Red" 2 Sample.in_safe :: [Game.mkPawn "Red" 0 Sample.in_home]))
    + (Sample.distance (Game.mkPawn "Red" 2 Sample.in_safe)
       - Sample.distance (Game.mkPawn "Red" 0 Sample.in_home))
    + 100
    + (if home_or_safe (Game.mkPawn "Red" 2 Sample.in_safe) then 0 else 10).
Proof.
  apply (last_pawn_home_gains_100 Sample.distance "Red").
  - repeat (constructor; [reflexivity|]). constructor.
  - repeat (constructor; [reflexivity|]). constructor.
  - reflexivity.
  - reflexivity.
Defined.

(** * The reward on binary64 floats *)

Section Rounding.
Import Py Binary64.

(** Above 53 bits the quotient by the unit in the last place has 53 bits. *)
Lemma quotient_bounds (n e : Z) :
  0 < n -> e = Z.log2 n -> 53 <= e ->
  let P := 2 ^ (e - 52) in
  0 < P /\ 2 * 2 ^ (e - 52 - 1) = P /\ 2 ^ e = 2 ^ 52 * P /\
  2 ^ 52 <= n / P < 2 ^ 53 /\ n = P * (n / P) + n mod P /\ 0 <= n mod P < P.
Proof.
  intros Hn He H53 P.
  assert (HP : 0 < P) by (apply Z.pow_pos_nonneg; lia).
  assert (Hh : 2 * 2 ^ (e - 52 - 1) = P).
  { unfold P. rewrite <- Z.pow_succ_r by lia. f_equal. lia. }
  assert (He2 : 2 ^ e = 2 ^ 52 * P).
  { unfold P. rewrite <- Z.pow_add_r by lia. f_equal. lia. }
  pose proof (Z.log2_spec n Hn) as [Hlo Hhi]. rewrite <- He in Hlo, Hhi.
  rewrite Z.pow_succ_r in Hhi by lia.
  pose proof (Z.div_mod n P ltac:(lia)) as Hdm.
  pose proof (Z.mod_pos_bound n P HP) as Hr.
  repeat split; try lia.
  - apply Z.div_le_lower_bound; lia.
  - apply Z.div_lt_upper_bound; lia.
Qed.

Lemma round_pos_small (n : Z) : Z.log2 n < 53 -> round_pos n = n.
Proof.
  intros H. unfold round_pos.
  destruct (Z.ltb_spec (Z.log2 n) 53); [reflexivity | lia].
Qed.

(** Above 53 bits the outcome is the quotient or its successor, scaled
    back. *)
Lemma round_pos_large (n : Z) :
  53 <= Z.log2 n ->
  let P := 2 ^ (Z.log2 n - 52) in
  let h := 2 ^ (Z.log2 n - 52 - 1) in
  let q := n / P in
  let r := n mod P in
  (r < h -> round_pos n = q * P)
  /\ (h < r -> round_pos n = (q + 1) * P)
  /\ (r = h -> Z.even q = false -> round_pos n = (q + 1) * P)
  /\ (round_pos n = q * P \/ round_pos n = (q + 1) * P).
Proof.
  intros H P h q r. unfold round_pos.
  destruct (Z.ltb_spec (Z.log2 n) 53); [lia|].
  fold P h q r. cbv zeta.
  destruct (Z.ltb_spec r h), (Z.ltb_spec h r), (Z.even q) eqn:E;
    repeat split; intros; try lia; try congruence; auto.
Qed.

Lemma log2_large_pos (n : Z) : 53 <= Z.log2 n -> 0 < n.
Proof.
  intros Hl. destruct (Z.lt_ge_cases 0 n) as [H|H]; [exact H|].
  rewrite Z.log2_nonpos in Hl by exact H. lia.
Qed.

Lemma round_pos_exact (n : Z) : 0 <= n <= 2 ^ 53 -> round_pos n = n.
Proof.
  intros [Hlo Hhi].
  destruct (Z.eq_dec n (2 ^ 53)) as [->|Hne]; [vm_compute; reflexivity|].
  apply round_pos_small.
  destruct (Z.eq_dec n 0) as [->|Hn0]; [vm_compute; reflexivity|].
  apply Z.log2_lt_pow2; lia.
Qed.

Lemma round_pos_nonneg (n : Z) : 0 <= n -> 0 <= round_pos n.
Proof.
  intros Hn. destruct (Z.lt_ge_cases (Z.log2 n) 53) as [Hs|Hl].
  - rewrite round_pos_small by exact Hs. exact Hn.
  - pose proof (log2_large_pos n Hl) as Hpos.
    destruct (quotient_bounds n (Z.log2 n) Hpos eq_refl Hl)
      as (HP & _ & _ & Hq & _).
    destruct (round_pos_large n Hl) as (_ & _ & _ & [-> | ->]); nia.
Qed.

(** Below [overflow_from] the rounding stays in range. *)
Lemma round_pos_below (n : Z) :
  0 <= n < overflow_from -> round_pos n < 2 ^ 1024.
Proof.
  intros [Hlo Hhi]. unfold overflow_from in Hhi.
  destruct (Z.lt_ge_cases (Z.log2 n) 53) as [Hs|Hl].
  { rewrite round_pos_small by exact Hs. lia. }
  pose proof (log2_large_pos n Hl) as Hn.
  assert (He : Z.log2 n < 1024) by (apply Z.log2_lt_pow2; lia).
  destruct (quotient_bounds n (Z.log2 n) Hn eq_refl Hl)
    as (HP & Hh & Hpow & Hq & Hdm & Hr).
  destruct (round_pos_large n Hl) as (Hlt & _ & _ & Hcases).
  destruct (Z.eq_dec (Z.log2 n) 1023) as [E|E].
  - rewrite E in *.
    change (1023 - 52) with 971 in *. change (971 - 1) with 970 in *.
    destruct (Z.lt_ge_cases (n mod 2 ^ 971) (2 ^ 970)) as [Hrl|Hrg].
    + rewrite (Hlt Hrl). lia.
    + destruct Hcases as [-> | ->]; lia.
  - assert (Hle : 2 ^ (Z.log2 n + 1) <= 2 ^ 1023) by (apply Z.pow_le_mono_r; lia).
    rewrite Z.pow_add_r in Hle by lia. change (2 ^ 1) with 2 in Hle.
    destruct Hcases as [-> | ->]; nia.
Qed.

(** From [overflow_from] on the rounding reaches [2^1024]. *)
Lemma round_pos_above (n : Z) : overflow_from <= n -> 2 ^ 1024 <= round_pos n.
Proof.
  intros Hn. unfold overflow_from in Hn.
  assert (Hpos : 0 < n) by lia.
  assert (Hl : 1023 <= Z.log2 n) by (apply Z.log2_le_pow2; lia).
  destruct (quotient_bounds n (Z.log2 n) Hpos eq_refl ltac:(lia))
    as (HP & Hh & Hpow & Hq & Hdm & Hr).
  destruct (round_pos_large n ltac:(lia)) as (_ & Hgt & Hodd & Hcases).
  destruct (Z.eq_dec (Z.log2 n) 1023) as [E|E].
  - rewrite E in *.
    change (1023 - 52) with 971 in *. change (971 - 1) with 970 in *.
    assert (Hlt : n < 2 ^ 1024).
    { pose proof (Z.log2_spec n Hpos) as [_ H]. rewrite E in H. exact H. }
    assert (Hq' : n / 2 ^ 971 = 2 ^ 53 - 1) by lia.
    destruct (Z.eq_dec (n mod 2 ^ 971) (2 ^ 970)) as [Hr'|Hr'].
    + rewrite (Hodd Hr'); [lia|]. rewrite Hq'. vm_compute. reflexivity.
    + rewrite Hgt; lia.
  - assert (Hle : 2 ^ 1024 <= 2 ^ Z.log2 n) by (apply Z.pow_le_mono_r; lia).
    destruct Hcases as [-> | ->]; nia.
Qed.

Lemma round_of_nonneg (n : Z) : 0 <= n -> round n = round_pos n.
Proof.
  intros Hn. unfold round. rewrite Z.abs_eq by exact Hn.
  destruct (Z.eq_dec n 0) as [->|Hne]; [reflexivity|].
  rewrite Z.sgn_pos by lia. lia.
Qed.

Lemma float_of_int_in_range (n : Z) :
  0 <= n < overflow_from ->
  float_of_int n = Ok (round_pos n) /\ 0 <= round_pos n.
Proof.
  intros Hn. pose proof (round_pos_below n Hn) as Hb.
  pose proof (round_pos_nonneg n ltac:(lia)) as H0.
  split; [|exact H0]. unfold float_of_int. rewrite round_of_nonneg by lia.
  cbv zeta. rewrite Z.abs_eq by exact H0.
  destruct (Z.leb_spec (2 ^ 1024) (round_pos n)); [lia | reflexivity].
Qed.

Lemma float_of_int_overflow (n : Z) :
  overflow_from <= n -> float_of_int n = Raise OverflowError.
Proof.
  intros Hn. pose proof (round_pos_above n Hn) as Ha.
  assert (0 <= n) by (unfold overflow_from in Hn; lia).
  unfold float_of_int. rewrite round_of_nonneg by assumption.
  cbv zeta. rewrite Z.abs_eq by lia.
  destruct (Z.leb_spec (2 ^ 1024) (round_pos n)); [reflexivity | lia].
Qed.

(** Up to [2^53] the conversion is exact. *)
Lemma float_of_int_exact (n : Z) : 0 <= n <= 2 ^ 53 -> float_of_int n = Ok n.
Proof.
  intros Hn.
  destruct (float_of_int_in_range n) as [-> _].
  - unfold overflow_from. lia.
  - rewrite round_pos_exact by exact Hn. reflexivity.
Qed.
End Rounding.

Section RewardBinary64.
Import Py Game RewardCalculatorV1.
Variable distance_to_home : Pawn -> Z.

(** Up to [2^53] the machine gives the float of the exact model. *)
Lemma calculate_agrees (view : PlayerView) :
  _reward distance_to_home view <= 2 ^ 53 ->
  Binary64.calculate distance_to_home view = Ok (_reward distance_to_home view)
  /\ calculate distance_to_home view
     = inject_Z (_reward distance_to_home view).
Proof.
  intros Hr. split; [|reflexivity]. unfold Binary64.calculate.
  apply float_of_int_exact. rewrite reward_is_clamped in *. lia.
Qed.

(** C5, as amended. [calculate] never returns a negative float: a negative
    raw value is reported as 0.0; as long as the clamped reward is below
    [2^1024 - 2^970] a float that is at least 0.0 is returned; from there on
    the conversion to float raises an [OverflowError]. *)
Theorem calculate_nonnegative_unless_overflow (view : PlayerView) :
  (raw_reward distance_to_home view < 0 ->
   Binary64.calculate distance_to_home view = Ok 0)
  /\ (_reward distance_to_home view < Binary64.overflow_from ->
      exists f, Binary64.calculate distance_to_home view = Ok f /\ 0 <= f)
  /\ (Binary64.overflow_from <= _reward distance_to_home view ->
      Binary64.calculate distance_to_home view = Raise OverflowError)
  /\ (forall f, Binary64.calculate distance_to_home view = Ok f -> 0 <= f).
Proof.
  assert (Hnn : 0 <= _reward distance_to_home view)
    by (rewrite reward_is_clamped; lia).
  assert (Hin : _reward distance_to_home view < Binary64.overflow_from ->
                exists f, Binary64.calculate distance_to_home view = Ok f /\ 0 <= f).
  { intros Hlt. unfold Binary64.calculate.
    destruct (float_of_int_in_range (_reward distance_to_home view)) as [-> H0];
      [lia|]. eauto. }
  split; [|split; [exact Hin|split]].
  - intros Hneg. unfold Binary64.calculate.
    rewrite reward_is_clamped, Z.max_l by lia. reflexivity.
  - intros Hge. apply float_of_int_overflow, Hge.
  - intros f Hf.
    destruct (Z.lt_ge_cases (_reward distance_to_home view) Binary64.overflow_from)
      as [Hlt|Hge].
    + destruct (Hin Hlt) as (f' & Hf' & H0). congruence.
    + unfold Binary64.calculate in Hf.
      rewrite (float_of_int_overflow _ Hge) in Hf. discriminate.
Qed.
End RewardBinary64.


(** The evaluation of [calculate] at a view with a pawn at a distance of
    minus ten to the 400: the conversion to float is refused. *)
Lemma calculate_overflow_counterexample :
  Binary64.calculate Sample.distance Table.off_board_view
  = Py.Raise Py.OverflowError
  /\ ~ (exists f, Binary64.calculate Sample.distance Table.off_board_view = Py.Ok f
                  /\ 0 <= f).
Proof.
  assert (H : Binary64.calculate Sample.distance Table.off_board_view
              = Py.Raise Py.OverflowError) by (vm_compute; reflexivity).
  split; [exact H|]. intros (f & Hf & _). rewrite H in Hf. discriminate.
Qed.


(** The evaluation of [RewardV1InputSource.choose_move] at three moves that
    all lead to the same view: the second and the third move have the same,
    greatest score, and the move returned is the first of the list, not the
    earlier of those two. *)
Lemma choose_move_three_way_tie_counterexample :
  let score := move_score (RewardV1InputSource.calculate Sample.distance)
                 Sample.two_players Sample.still in
  [7%nat; 8%nat; 9%nat] !! 1%nat = Some 8%nat
  /\ [7%nat; 8%nat; 9%nat] !! 2%nat = Some 9%nat
  /\ (score 8%nat == score 9%nat)%Q
  /\ (forall m, m ∈ [7%nat; 8%nat; 9%nat] -> (score m <= score 8%nat)%Q)
  /\ RewardV1InputSource.choose_move Sample.distance Game.STANDARD
       Sample.two_players [7%nat; 8%nat; 9%nat] Sample.still
     = Py.Ok 7%nat
  /\ Py.Ok 7%nat <> Py.Ok 8%nat.
Proof.
  cbv zeta. split; [reflexivity|]. split; [reflexivity|].
  split; [reflexivity|]. split; [intros m _; apply Qle_refl|].
  split; [vm_compute; reflexivity | discriminate].
Qed.

Lemma calculate_nonnegative_unless_overflow_witness :
  Binary64.calculate Sample.distance Sample.three_players = Py.Ok 0
  /\ (exists f, Binary64.calculate Sample.distance Sample.two_players = Py.Ok f
                /\ 0 <= f)
  /\ Binary64.calculate Sample.distance Table.off_board_view
     = Py.Raise Py.OverflowError.
Proof.
  split; [|split].
  - apply (proj1 (calculate_nonnegative_unless_overflow Sample.distance
                    Sample.three_players)).
    vm_compute. reflexivity.
  - apply (proj1 (proj2 (calculate_nonnegative_unless_overflow Sample.distance
                           Sample.two_players))).
    vm_compute. reflexivity.
  - apply (proj1 (proj2 (proj2 (calculate_nonnegative_unless_overflow
                                  Sample.distance Table.off_board_view)))).
    vm_compute. discriminate.
Defined.

